(** * kulyk-rust client scripts: [testing.py] and [testing_highload.py]

  A shallow embedding of the two Python scripts that exercise the
  translation service, and the properties of the latency-measuring
  pass that the specification states about them.

  Python values are kept dynamically typed ([pyval]); Python floats are
  IEEE binary64 numbers, Rocq's primitive [float]. The effects of the
  scripts (the wall clock, the HTTP transport, the CSV reader, standard
  output and the module-level list [times]) are threaded through a
  reader/state/exception monad [M]: what the outside world answers is
  the environment [Env], what the script changes is the [State]. *)

From Stdlib Require Import ZArith Floats.
From stdpp Require Import base option list gmap strings.

Local Open Scope Z_scope.
#[local] Set Warnings "-register-all".

(** ** Python values *)

Module Py.

(** Python's [int] and [float]. *)
Inductive number :=
| Int (z : Z)
| Float (x : float).

(** The JSON-like fragment of Python objects that the scripts handle:
    dataset cells, request bodies, decoded responses, printed items. *)
Inductive pyval :=
| PyNone
| PyBool (b : bool)
| PyNum (n : number)
| PyStr (s : string)
| PyList (items : list pyval)
| PyDict (items : list (string * pyval)).

(** The exceptions that can end a script. [DataUnavailable] stands for
    whatever [pl.read_csv] raises, [RequestFailed] for whatever
    [requests.post] or [Response.json] raises. *)
Inductive exn :=
| DataUnavailable
| RequestFailed
| KeyError (key : string)
| ZeroDivisionError.

(** [float(z)]: conversion of an integer, rounded to nearest even. *)
Definition Z2float (z : Z) : float :=
  SF2Prim (binary_normalize prec emax z 0 false).

Definition to_float (n : number) : float :=
  match n with
  | Int z => Z2float z
  | Float x => x
  end.

(** [a + b]: integers add exactly, a float operand makes the sum a float. *)
Definition py_add (a b : number) : number :=
  match a, b with
  | Int x, Int y => Int (x + y)
  | _, _ => Float (to_float a + to_float b)
  end.

(** [sum(xs)]: left to right, starting from the integer [0]. (This is
    the documented meaning; from CPython 3.12 on the float total also
    carries a rounding compensation.) *)
Definition py_sum (xs : list number) : number :=
  fold_left py_add xs (Int 0).

(** [n == 0] *)
Definition eq_zero (n : number) : bool :=
  match n with
  | Int z => Z.eqb z 0
  | Float x => PrimFloat.is_zero x
  end.

(** [a / b]: true division; the quotient is a float, a zero divisor
    raises. (For two integers beyond 2^53 CPython rounds the exact
    quotient once; the scripts only divide a float by a length.) *)
Definition py_truediv (a b : number) : exn + number :=
  if eq_zero b then inl ZeroDivisionError
  else inr (Float (to_float a / to_float b)).

(** [len(xs)] *)
Definition len {A} (xs : list A) : number := Int (Z.of_nat (length xs)).

(** [d[k]] on a dict given as its item list (first binding wins; the
    scripts build their dicts with distinct keys). *)
Fixpoint dict_get (items : list (string * pyval)) (k : string) : option pyval :=
  match items with
  | [] => None
  | (k', v) :: rest => if String.eqb k' k then Some v else dict_get rest k
  end.

Definition field (v : pyval) (k : string) : option pyval :=
  match v with
  | PyDict items => dict_get items k
  | _ => None
  end.

Definition keys (v : pyval) : list string :=
  match v with
  | PyDict items => fst <$> items
  | _ => []
  end.

End Py.
Export Py.

(** ** The outside world and the monad of the scripts *)

Module World.

(** One row of a data frame, as [iter_rows(named=True)] yields it. *)
Abbreviation Row := (gmap string pyval).

Record Request := mkRequest {
  method : string;
  url : string;
  json : pyval
}.

(** [payload = None]: the body is not JSON and [Response.json] raises. *)
Record Response := mkResponse {
  status_code : Z;
  payload : option pyval
}.

(** What the world answers.
    - [read_csv path]: the rows of the data set, [None] when it cannot
      be fetched or parsed;
    - [clock k]: the [k]-th reading of [time.time()];
    - [server k req]: the answer to the [k]-th request sent, [None]
      when [requests.post] raises. *)
Record Env := mkEnv {
  read_csv : string → option (list Row);
  clock : nat → float;
  server : nat → Request → option Response
}.

(** What a script changes: the number of clock readings taken, the
    requests sent so far (oldest first), the lines printed so far, and
    the module-level list [times] of [testing_highload.py]. *)
Record State := mkState {
  ticks : nat;
  sent : list Request;
  stdout : list (list pyval);
  times : list float
}.

Definition init : State :=
  {| ticks := 0; sent := []; stdout := []; times := [] |}.

Definition M (A : Type) : Type := Env → State → (exn + A) * State.

#[global] Instance M_ret : MRet M := λ A a _ st, (inr a, st).

(** An exception skips the continuation and keeps the state reached. *)
#[global] Instance M_bind : MBind M := λ A B f m env st,
  match m env st with
  | (inl e, st') => (inl e, st')
  | (inr a, st') => f a env st'
  end.

Definition raise {A} (e : exn) : M A := λ _ st, (inl e, st).

Definition lift {A} (r : exn + A) : M A := λ _ st, (r, st).

(** [time.time()] *)
Definition time_time : M float := λ env st,
  (inr (clock env (ticks st)),
   {| ticks := S (ticks st); sent := sent st;
      stdout := stdout st; times := times st |}).

(** [requests.post(u, json=body)]: the request leaves, then the
    transport answers or raises. *)
Definition requests_post (u : string) (body : pyval) : M Response := λ env st,
  let req := {| method := "POST"; url := u; json := body |} in
  let st' := {| ticks := ticks st; sent := sent st ++ [req];
                stdout := stdout st; times := times st |} in
  match server env (length (sent st)) req with
  | Some resp => (inr resp, st')
  | None => (inl RequestFailed, st')
  end.

(** [resp.json()] *)
Definition resp_json (resp : Response) : M pyval :=
  match payload resp with
  | Some data => mret data
  | None => raise RequestFailed
  end.

(** [print(a, b, ...)]: one line holding the printed items *)
Definition print (args : list pyval) : M unit := λ _ st,
  (inr (),
   {| ticks := ticks st; sent := sent st;
      stdout := stdout st ++ [args]; times := times st |}).

(** [pl.read_csv(path)] followed by [iter_rows(named=True)] *)
Definition pl_read_csv (path : string) : M (list Row) := λ env st,
  match read_csv env path with
  | Some rows => (inr rows, st)
  | None => (inl DataUnavailable, st)
  end.

(** [row[k]] *)
Definition getitem (row : Row) (k : string) : M pyval :=
  match row !! k with
  | Some v => mret v
  | None => raise (KeyError k)
  end.

(** [times = xs], [times.append(x)] and reading [times] *)
Definition set_times (xs : list float) : M unit := λ _ st,
  (inr (),
   {| ticks := ticks st; sent := sent st; stdout := stdout st; times := xs |}).

Definition times_append (x : float) : M unit := λ _ st,
  (inr (),
   {| ticks := ticks st; sent := sent st;
      stdout := stdout st; times := times st ++ [x] |}).

Definition get_times : M (list float) := λ _ st, (inr (times st), st).

(** [for x in xs: body(x)] *)
Fixpoint for_each {A} (xs : list A) (body : A → M unit) : M unit :=
  match xs with
  | [] => mret ()
  | x :: rest => body x;; for_each rest body
  end.

End World.
Export World.

(** ** [testing.py] *)

Module testing.

Definition addr : string := "http://127.0.0.1:3000/translate".

Definition call (text : string) : M unit :=
  resp ← requests_post addr
    (PyDict [("text", PyStr text); ("source_lang", PyStr "en");
             ("target_lang", PyStr "uk")]);
  data ← resp_json resp;
  print [data].

Definition call_back (text : string) : M unit :=
  resp ← requests_post addr
    (PyDict [("text", PyStr text); ("source_lang", PyStr "uk");
             ("target_lang", PyStr "en")]);
  data ← resp_json resp;
  print [data].

Definition sentences_ukrainian : list string :=
  [ "Привіт, світе!";
    "Як справи?";
    "Я вивчаю програмування на Rust.";
    "Це дуже цікаво.";
    "Дякую за допомогу.";
    "Гарного дня!";
    "До побачення.";
    "Слава Україні!";
    "Героям слава!";
    "Україна понад усе!" ].

Definition sentences_english : list string :=
  [ "Hello, world!";
    "How are you?";
    "I'm learning Rust programming.";
    "It's very interesting.";
    "Thank you for your help.";
    "Have a nice day!";
    "Goodbye.";
    "Glory to Ukraine!";
    "Glory to the heroes!";
    "Ukraine above all!" ].

Definition main : M unit :=
  for_each sentences_ukrainian call;;
  for_each sentences_english call_back.

End testing.

(** ** [testing_highload.py] *)

Module testing_highload.

Definition addr : string := "http://127.0.0.1:3000/translate".

Definition dataset : string :=
  "hf://datasets/speech-uk/text-to-speech-sentences/**/*.csv".

Definition call (text : pyval) (s0 : float) : M float :=
  resp ← requests_post addr
    (PyDict [("text", text); ("source_lang", PyStr "uk");
             ("target_lang", PyStr "en")]);
  data ← resp_json resp;
  now ← time_time;
  let elapsed := (now - s0)%float in
  print [PyNum (Float elapsed); data];;
  mret elapsed.

(** The body of the [for row in df.iter_rows(named=True)] loop. *)
Definition step (row : Row) : M unit :=
  s0 ← time_time;
  text ← getitem row "sentence";
  elapsed ← call text s0;
  times_append elapsed.

(** The last statement: [print("Average:", sum(times) / len(times), "sec")]. *)
Definition report : M unit :=
  ts ← get_times;
  avg ← lift (py_truediv (py_sum (Float <$> ts)) (len ts));
  print [PyStr "Average:"; PyNum avg; PyStr "sec"].

Definition main : M unit :=
  df ← pl_read_csv dataset;
  set_times [];;
  for_each df step;;
  report.

End testing_highload.

(** ** Vocabulary of the properties *)

Module Harness.
Import testing_highload.

(** The request that [call] builds for a sentence and a direction. *)
Definition translation_request (src tgt : string) (text : pyval) : Request :=
  {| method := "POST"; url := addr;
     json := PyDict [("text", text); ("source_lang", PyStr src);
                     ("target_lang", PyStr tgt)] |}.

(** The request of [testing_highload.py] for a sentence. *)
Abbreviation request_for := (translation_request "uk" "en").

(** The decoded answer to the [k]-th request, [None] when
    [requests.post] or [Response.json] raises. *)
Definition roundtrip (env : Env) (k : nat) (req : Request) : option pyval :=
  server env k req ≫= payload.

(** The sentence sequence carried by the rows of a data set. *)
Definition sentences_of (rows : list Row) (ss : list pyval) : Prop :=
  Forall2 (λ row s, row !! "sentence" = Some s) rows ss.

(** The transport answers every request of the pass. *)
Definition always_succeeds (env : Env) : Prop :=
  ∀ k req, is_Some (roundtrip env k req).

(** The elapsed values of [n] consecutive items when the first timer
    is started at reading [t]: each item reads the clock twice. *)
Fixpoint elapsed_from (env : Env) (t n : nat) : list float :=
  match n with
  | O => []
  | S n' => (clock env (S t) - clock env t)%float :: elapsed_from env (S (S t)) n'
  end.

(** Sum divided by the number of values, in binary64 arithmetic. *)
Definition arithmetic_mean (xs : list float) : float :=
  (fold_left PrimFloat.add xs 0 / Z2float (Z.of_nat (length xs)))%float.

(** The line that [call] prints for one measurement. *)
Definition measurement_line (line : list pyval) : Prop :=
  ∃ elapsed data, line = [PyNum (Float elapsed); data].

(** The run summary as the script reports it: the count is the length
    of [times], the mean is the number on the final [Average:] line. *)
Record RunSummary := mkSummary {
  count : nat;
  mean_latency : float
}.

Definition summary (st : State) : option RunSummary :=
  match last (stdout st) with
  | Some [PyStr "Average:"; PyNum (Float m); PyStr "sec"] =>
      Some {| count := length (times st); mean_latency := m |}
  | _ => None
  end.

(** The language codes carried by a request. *)
Definition has_direction (src tgt : string) (r : Request) : Prop :=
  field (json r) "source_lang" = Some (PyStr src) ∧
  field (json r) "target_lang" = Some (PyStr tgt).

(** The wire contract: a POST to the endpoint whose JSON body has the
    three fields [text], [source_lang], [target_lang], in this order
    and no other, the language codes being strings. *)
Definition wire_request (r : Request) : Prop :=
  method r = "POST" ∧
  url r = addr ∧
  keys (json r) = ["text"; "source_lang"; "target_lang"] ∧
  is_Some (field (json r) "text") ∧
  (∃ src, field (json r) "source_lang" = Some (PyStr src)) ∧
  (∃ tgt, field (json r) "target_lang" = Some (PyStr tgt)).

(** A clock that never runs backwards and only shows finite times. *)
Definition monotone_clock (env : Env) : Prop :=
  (∀ i, PrimFloat.is_finite (clock env i) = true) ∧
  (∀ i j, (i ≤ j)%nat → (clock env i <=? clock env j)%float = true).

End Harness.
Export Harness.

(** ** Concrete worlds, used to run the model *)

Module Demo.

Definition answer : Response :=
  {| status_code := 200;
     payload := Some (PyDict [("translated_text", PyStr "Hello, world!")]) |}.

(** Five rows; only the first two carry other columns. *)
Definition rows : list Row :=
  [ {[ "sentence" := PyStr "Привіт, світе!"; "id" := PyNum (Int 1) ]};
    {[ "sentence" := PyStr "Як справи?"; "speaker" := PyNone ]};
    {[ "sentence" := PyStr "Це дуже цікаво." ]};
    {[ "sentence" := PyStr "Гарного дня!" ]};
    {[ "sentence" := PyStr "До побачення." ]} ].

(** The same sentences with every other column dropped. *)
Definition bare_rows : list Row :=
  [ {[ "sentence" := PyStr "Привіт, світе!" ]};
    {[ "sentence" := PyStr "Як справи?" ]};
    {[ "sentence" := PyStr "Це дуже цікаво." ]};
    {[ "sentence" := PyStr "Гарного дня!" ]};
    {[ "sentence" := PyStr "До побачення." ]} ].

Definition sentences : list pyval :=
  [ PyStr "Привіт, світе!"; PyStr "Як справи?"; PyStr "Це дуже цікаво.";
    PyStr "Гарного дня!"; PyStr "До побачення." ].

(** Ten readings, the later ones frozen at the last value. *)
Definition readings : list float :=
  [ 0; 0.125; 1; 1.25; 2; 2.5; 3; 3.125; 4; 5.5 ]%float.

Definition wall_clock (k : nat) : float := nth k readings 5.5%float.

Definition always_ok : nat → Request → option Response := λ _ _, Some answer.

(** Raises on the third request. *)
Definition third_fails : nat → Request → option Response :=
  λ k _, if Nat.eqb k 2 then None else Some answer.

Definition world : Env :=
  {| read_csv := λ _, Some rows; clock := wall_clock; server := always_ok |}.

Definition faulty_world : Env :=
  {| read_csv := λ _, Some rows; clock := wall_clock; server := third_fails |}.

Definition empty_world : Env :=
  {| read_csv := λ _, Some []; clock := wall_clock; server := always_ok |}.

Definition offline_world : Env :=
  {| read_csv := λ _, None; clock := wall_clock; server := always_ok |}.

End Demo.
(** ** Vocabulary of the further properties *)

Module Ledger.
Import testing_highload.

(** The requests of [testing.py], in the order its two passes send them. *)
Definition forward_request (text : string) : Request :=
  translation_request "en" "uk" (PyStr text).

Definition backward_request (text : string) : Request :=
  translation_request "uk" "en" (PyStr text).

Definition smoke_requests : list Request :=
  (forward_request <$> testing.sentences_ukrainian) ++
  (backward_request <$> testing.sentences_english).

(** The line printed for a measurement with elapsed value [e]. *)
Definition measured (e : float) (line : list pyval) : Prop :=
  ∃ data, line = [PyNum (Float e); data].

(** The last line of a complete measuring run. *)
Definition average_line (ts : list float) : list pyval :=
  [PyStr "Average:"; PyNum (Float (arithmetic_mean ts)); PyStr "sec"].

(** Two states that differ at most in what was printed. *)
Definition same_but_stdout (st1 st2 : State) : Prop :=
  ticks st1 = ticks st2 ∧ sent st1 = sent st2 ∧ times st1 = times st2.

(** Two answers of the same kind: both missing, both without a JSON
    body, or both with one, whatever the status codes and the contents. *)
Definition same_shape (a1 a2 : option Response) : Prop :=
  (is_Some a1 ↔ is_Some a2) ∧
  (is_Some (a1 ≫= payload) ↔ is_Some (a2 ≫= payload)).

End Ledger.
Export Ledger.

(** ** Further concrete worlds *)

Module Cases.

(** The same body as [Demo.answer] under an error status. *)
Definition error_answer : Response :=
  {| status_code := 500; payload := payload Demo.answer |}.

Definition always_error_status : nat → Request → option Response :=
  λ _ _, Some error_answer.

(** A different translation in every answer. *)
Definition other_answer : Response :=
  {| status_code := 200;
     payload := Some (PyDict [("translated_text", PyStr "Glory to Ukraine!");
                              ("took_ms", PyNum (Int 12))]) |}.

Definition always_other : nat → Request → option Response :=
  λ _ _, Some other_answer.

(** The third answer is not JSON. *)
Definition third_garbled : nat → Request → option Response :=
  λ k _, if Nat.eqb k 2 then Some {| status_code := 200; payload := None |}
         else Some Demo.answer.

(** A data set whose text column has another name. *)
Definition renamed_rows : list Row :=
  [ {[ "text" := PyStr "Привіт, світе!" ]};
    {[ "text" := PyStr "Як справи?" ]} ].

Definition renamed_world : Env :=
  {| read_csv := λ _, Some renamed_rows; clock := Demo.wall_clock;
     server := Demo.always_ok |}.

(** The third row lacks the sentence cell. *)
Definition ragged_rows : list Row :=
  [ {[ "sentence" := PyStr "Привіт, світе!" ]};
    {[ "sentence" := PyStr "Як справи?" ]};
    {[ "id" := PyNum (Int 3) ]};
    {[ "sentence" := PyStr "Гарного дня!" ]} ].

Definition ragged_world : Env :=
  {| read_csv := λ _, Some ragged_rows; clock := Demo.wall_clock;
     server := Demo.always_ok |}.

End Cases.


(** * Properties *)

(** ** The monad *)

Section monad.
Context {A B : Type}.

Lemma bind_ok (m : M A) (f : A → M B) env st a st' :
  m env st = (inr a, st') → (m ≫= f) env st = f a env st'.
Proof. intros H. unfold mbind, M_bind. now rewrite H. Qed.

Lemma bind_raise (m : M A) (f : A → M B) env st e st' :
  m env st = (inl e, st') → (m ≫= f) env st = (inl e, st').
Proof. intros H. unfold mbind, M_bind. now rewrite H. Qed.

End monad.

Lemma for_each_nil {A} (body : A → M unit) env st :
for_each [] body env st = (inr (), st).
Proof. reflexivity. Qed.

Lemma for_each_cons_ok {A} (body : A → M unit) x xs env st st' :
body x env st = (inr (), st') →
for_each (x :: xs) body env st = for_each xs body env st'.
Proof. intros H. cbn [for_each]. now rewrite (bind_ok _ _ _ _ _ _ H). Qed.

Lemma for_each_cons_raise {A} (body : A → M unit) x xs env st e st' :
body x env st = (inl e, st') →
for_each (x :: xs) body env st = (inl e, st').
Proof. intros H. cbn [for_each]. now rewrite (bind_raise _ _ _ _ _ _ H). Qed.

(** ** One iteration of the measuring loop *)

Section step.
Import testing_highload.
Variables (env : Env) (st : State) (row : Row).

(** The three ways one iteration can end. *)
Lemma step_ok text data :
  row !! "sentence" = Some text →
  roundtrip env (length (sent st)) (translation_request "uk" "en" text) = Some data →
  step row env st =
    (inr (),
     let e := (clock env (S (ticks st)) - clock env (ticks st))%float in
     {| ticks := S (S (ticks st));
        sent := sent st ++ [translation_request "uk" "en" text];
        stdout := stdout st ++ [[PyNum (Float e); data]];
        times := times st ++ [e] |}).
Proof.
  intros Hrow Hrt. unfold roundtrip, translation_request in Hrt.
  unfold step, call, getitem, requests_post, resp_json, mbind, M_bind.
  cbn. rewrite Hrow. cbn.
  destruct (server env _ _) as [resp|]; [|discriminate].
  cbn in Hrt. rewrite Hrt. reflexivity.
Qed.

Lemma step_request_failed text :
  row !! "sentence" = Some text →
  roundtrip env (length (sent st)) (translation_request "uk" "en" text) = None →
  step row env st =
    (inl RequestFailed,
     {| ticks := S (ticks st);
        sent := sent st ++ [translation_request "uk" "en" text];
        stdout := stdout st;
        times := times st |}).
Proof.
  intros Hrow Hrt. unfold roundtrip, translation_request in Hrt.
  unfold step, call, getitem, requests_post, resp_json, mbind, M_bind.
  cbn. rewrite Hrow. cbn.
  destruct (server env _ _) as [resp|]; [|reflexivity].
  cbn in Hrt. rewrite Hrt. reflexivity.
Qed.

Lemma step_key_error :
  row !! "sentence" = None →
  step row env st =
    (inl (KeyError "sentence"),
     {| ticks := S (ticks st); sent := sent st;
        stdout := stdout st; times := times st |}).
Proof.
  intros Hrow. unfold step, getitem, mbind, M_bind. cbn. now rewrite Hrow.
Qed.

End step.

(** ** Binary64 subtraction of ordered finite numbers *)

Section binary64.

(** Right shifts keep a mantissa non-negative. *)
Lemma shr_1_nonneg mrs : 0 <= shr_m mrs → 0 <= shr_m (shr_1 mrs).
Proof.
  destruct mrs as [m r s]. cbn [shr_m].
  destruct m as [|[p|p|]|[p|p|]]; cbn; lia.
Qed.

Lemma iter_shr_1_nonneg n : ∀ mrs,
  0 <= shr_m mrs → 0 <= shr_m (SpecFloat.iter_pos shr_1 n mrs).
Proof.
  induction n as [n IH|n IH|]; intros mrs H; cbn [SpecFloat.iter_pos].
  - apply IH, IH, shr_1_nonneg, H.
  - apply IH, IH, H.
  - apply shr_1_nonneg, H.
Qed.

Lemma shr_fexp_nonneg m e l :
  0 <= m → 0 <= shr_m (fst (shr_fexp prec emax m e l)).
Proof.
  intros Hm. unfold shr_fexp, shr.
  assert (H0 : 0 <= shr_m (shr_record_of_loc m l)).
  { destruct l as [|[]]; exact Hm. }
  destruct (fexp prec emax (Zdigits2 m + e) - e); cbn [fst]; try exact H0.
  apply iter_shr_1_nonneg, H0.
Qed.

Lemma round_nearest_even_nonneg m l : 0 <= m → 0 <= round_nearest_even m l.
Proof.
  intros Hm. destruct l as [|[]]; cbn; try lia.
  destruct (Z.even m); lia.
Qed.

(** Rounding a non-negative mantissa with a positive sign gives a
    number that is not below zero. *)
Lemma binary_round_aux_nonneg m e l :
  0 <= m →
  SFleb (S754_zero false) (binary_round_aux prec emax false m e l) = true.
Proof.
  intros Hm. unfold binary_round_aux.
  pose proof (shr_fexp_nonneg m e l Hm) as H1.
  destruct (shr_fexp prec emax m e l) as [mrs' e']. cbn [fst] in H1.
  pose proof (shr_fexp_nonneg _ e' loc_Exact
                (round_nearest_even_nonneg _ (loc_of_shr_record mrs') H1)) as H2.
  destruct (shr_fexp prec emax _ e' loc_Exact) as [mrs'' e'']. cbn [fst] in H2.
  destruct (shr_m mrs'') as [|p|p]; [reflexivity| |lia].
  destruct (e'' <=? emax - prec); reflexivity.
Qed.

Lemma binary_normalize_nonneg m e :
  0 <= m → SFleb (S754_zero false) (binary_normalize prec emax m e false) = true.
Proof.
  intros Hm. destruct m as [|p|p]; [reflexivity| |lia].
  cbn [binary_normalize]. unfold binary_round.
  destruct (shl_align p e _) as [mz ez]. now apply binary_round_aux_nonneg.
Qed.

(** Number of binary digits of a mantissa. *)
Lemma digits2_pos_bounds m :
  2 ^ (Zpos (digits2_pos m) - 1) <= Zpos m < 2 ^ Zpos (digits2_pos m).
Proof.
  induction m as [m IH|m IH|]; cbn [digits2_pos]; [| |cbn; lia].
  - rewrite Pos2Z.inj_succ, Z.pow_succ_r by lia.
    replace (Z.succ (Zpos (digits2_pos m)) - 1) with (Z.succ (Zpos (digits2_pos m) - 1)) by lia.
    rewrite Z.pow_succ_r by lia. lia.
  - rewrite Pos2Z.inj_succ, Z.pow_succ_r by lia.
    replace (Z.succ (Zpos (digits2_pos m)) - 1) with (Z.succ (Zpos (digits2_pos m) - 1)) by lia.
    rewrite Z.pow_succ_r by lia. lia.
Qed.

Lemma iter_xO m d : Zpos (Pos.iter xO m d) = Zpos m * 2 ^ Zpos d.
Proof.
  induction d as [|d IH] using Pos.peano_ind.
  - cbn. lia.
  - rewrite Pos.iter_succ, Pos2Z.inj_xO, IH, Pos2Z.inj_succ, Z.pow_succ_r by lia. lia.
Qed.

(** Aligning a mantissa to a smaller or equal exponent keeps the value. *)
Lemma shl_align_value m e e' :
  e' <= e → Zpos (fst (shl_align m e e')) = Zpos m * 2 ^ (e - e').
Proof.
  intros Hle. unfold shl_align.
  destruct (e' - e) as [|d|d] eqn:Hd; cbn [fst].
  - replace (e - e') with 0 by lia. cbn. lia.
  - lia.
  - rewrite iter_xO. f_equal. f_equal. lia.
Qed.

(** Among valid numbers of one sign a larger exponent is a larger
    magnitude, whatever the mantissas. *)
Lemma bounded_exponent_order m1 e1 m2 e2 :
  bounded prec emax m1 e1 = true →
  bounded prec emax m2 e2 = true →
  e1 < e2 →
  Zpos m1 < Zpos m2 * 2 ^ (e2 - e1).
Proof.
  unfold bounded, canonical_mantissa, fexp, emin, prec, emax.
  intros H1 H2 Hlt.
  apply andb_prop in H1 as [H1 _]. apply andb_prop in H2 as [H2 _].
  apply Z.eqb_eq in H1, H2.
  pose proof (digits2_pos_bounds m1) as [_ Hm1].
  pose proof (digits2_pos_bounds m2) as [Hm2 _].
  assert (Hd1 : Zpos (digits2_pos m1) <= 53) by lia.
  assert (Hd2 : Zpos (digits2_pos m2) = 53) by lia.
  rewrite Hd2 in Hm2.
  assert (Zpos m1 < 2 ^ 53).
  { eapply Z.lt_le_trans; [exact Hm1|]. apply Z.pow_le_mono_r; lia. }
  assert (2 ^ 1 <= 2 ^ (e2 - e1)) by (apply Z.pow_le_mono_r; lia).
  change (2 ^ 53) with (2 ^ 52 * 2 ^ 1) in *. change (53 - 1) with 52 in *.
  nia.
Qed.

Lemma pow2_pos k : 0 < 2 ^ k ∨ 2 ^ k = 0.
Proof. destruct (Z.le_gt_cases 0 k); [left; by apply Z.pow_pos_nonneg|right; by apply Z.pow_neg_r]. Qed.

(** The specification-level statement: for valid [x ≤ y] with [x]
    finite, [y - x] is not below zero. *)
Lemma SFsub_nonneg x y :
  valid_binary x = true →
  valid_binary y = true →
  match x with S754_zero _ | S754_finite _ _ _ => True | _ => False end →
  SFleb x y = true →
  SFleb (S754_zero false) (SFsub prec emax y x) = true.
Proof.
  intros Vx Vy Fx Hle.
  destruct x as [sx|sx| |sx mx ex]; try done;
    destruct y as [sy|sy| |sy my ey]; try done;
    try (destruct sx, sy; cbn in *; congruence).
  (* both finite: the sign of the exact difference decides *)
  cbn [valid_binary] in Vx, Vy.
  cbn [SFsub]. apply binary_normalize_nonneg.
  rewrite !shl_align_value by lia.
  unfold SFleb, SFcompare in Hle.
  destruct sx, sy; cbn [cond_Zopp]; try done.
  - (* both negative *)
    destruct (Z.compare_spec ex ey) as [->|Hlt|Hgt]; try done.
    + rewrite Z.min_id, Z.sub_diag. cbn.
      rewrite Pos.compare_cont_spec in Hle. cbn in Hle.
      destruct (Pos.compare_spec mx my); try done; lia.
    + pose proof (bounded_exponent_order my ey mx ex Vy Vx ltac:(lia)).
      rewrite Z.min_l, Z.sub_diag by lia. cbn [Z.pow]. lia.
  - (* x negative, y positive *)
    destruct (pow2_pos (ey - Z.min ey ex)), (pow2_pos (ex - Z.min ey ex)); nia.
  - (* both positive *)
    destruct (Z.compare_spec ex ey) as [->|Hlt|Hgt]; try done.
    + rewrite Z.min_id, Z.sub_diag. cbn.
      rewrite Pos.compare_cont_spec in Hle. cbn in Hle.
      destruct (Pos.compare_spec mx my); try done; lia.
    + pose proof (bounded_exponent_order mx ex my ey Vx Vy ltac:(lia)).
      rewrite Z.min_r, Z.sub_diag by lia. cbn [Z.pow]. lia.
Qed.

(** Binary64 subtraction: a finite time taken from a later one is an
    elapsed value that is not below zero. *)
Lemma sub_nonneg (a b : float) :
  PrimFloat.is_finite a = true →
  (a <=? b)%float = true →
  (0 <=? b - a)%float = true.
Proof.
  intros Hfin Hle.
  rewrite FloatAxioms.leb_spec in *. rewrite FloatAxioms.sub_spec.
  change (Prim2SF 0) with (S754_zero false).
  apply SFsub_nonneg; [apply Prim2SF_valid..| |exact Hle].
  unfold PrimFloat.is_finite, PrimFloat.is_nan, PrimFloat.is_infinity in Hfin.
  rewrite !FloatAxioms.eqb_spec, abs_spec in Hfin.
  change (Prim2SF infinity) with (S754_infinity false) in Hfin.
  destruct (Prim2SF a) as [s|s| |s m e]; try done; destruct s; cbn in Hfin; congruence.
Qed.

End binary64.

(** ** The measuring loop of [testing_highload.py] *)

Section loop.
Import testing_highload.
Variable env : Env.

(** The loop reads nothing of a row but its ["sentence"] cell. *)
Lemma step_ext (row1 row2 : Row) st :
  row1 !! "sentence" = row2 !! "sentence" →
  step row1 env st = step row2 env st.
Proof.
  intros H. unfold step, getitem, mbind, M_bind. cbn. now rewrite H.
Qed.

Lemma loop_ext (rows1 rows2 : list Row) :
  Forall2 (λ row1 row2, row1 !! "sentence" = row2 !! "sentence") rows1 rows2 →
  ∀ st, for_each rows1 step env st = for_each rows2 step env st.
Proof.
  induction 1 as [|row1 row2 rows1 rows2 Hrow _ IH]; intros st; [reflexivity|].
  cbn [for_each]. unfold mbind, M_bind.
  rewrite (step_ext row1 row2 st Hrow).
  destruct (step row2 env st) as [[e|[]] st1]; [reflexivity|apply IH].
Qed.

(** Every request answered: the loop runs to its end. *)
Lemma loop_success (rows : list Row) :
  ∀ ss st,
    sentences_of rows ss →
    (∀ i s, ss !! i = Some s →
            is_Some (roundtrip env (length (sent st) + i) (request_for s))) →
    ∃ st' out,
      for_each rows step env st = (inr (), st') ∧
      ticks st' = (ticks st + 2 * length rows)%nat ∧
      sent st' = sent st ++ (request_for <$> ss) ∧
      times st' = times st ++ elapsed_from env (ticks st) (length rows) ∧
      stdout st' = stdout st ++ out ∧
      length out = length rows ∧
      Forall measurement_line out.
Proof.
  induction rows as [|row rows IH]; intros ss st Hss Hok.
  - apply Forall2_nil_inv_l in Hss as ->.
    exists st, []. cbn. rewrite !app_nil_r, Nat.add_0_r. by repeat split.
  - apply Forall2_cons_inv_l in Hss as (s & ss' & Hrow & Hss' & ->).
    destruct (Hok 0%nat s eq_refl) as [data Hdata].
    rewrite Nat.add_0_r in Hdata.
    pose proof (step_ok env st row s data Hrow Hdata) as Hstep.
    cbv zeta in Hstep.
    rewrite (for_each_cons_ok _ _ _ _ _ _ Hstep).
    match goal with |- context [for_each rows step env ?st1] =>
      destruct (IH ss' st1 Hss')
        as (st' & out & Hrun & Ht & Hs & Htm & Ho & Hlen & Hall)
    end.
    { intros i s' Hi. cbn [sent]. rewrite length_app. cbn [length].
      replace (length (sent st) + 1 + i)%nat with (length (sent st) + S i)%nat by lia.
      by apply Hok. }
    cbn [ticks sent stdout times] in *.
    exists st', ([PyNum (Float (clock env (S (ticks st)) - clock env (ticks st))); data] :: out).
    split; [exact Hrun|].
    split; [cbn [length]; lia|].
    split; [by rewrite Hs, <- app_assoc|].
    split; [by rewrite Htm, <- app_assoc|].
    split; [by rewrite Ho, <- app_assoc|].
    split; [cbn [length]; lia|].
    constructor; [by eexists _, _|exact Hall].
Qed.

(** The [k]-th request (from 0) is the first one to fail: the loop
    stops there. *)
Lemma loop_abort (rows : list Row) :
  ∀ ss st k s,
    sentences_of rows ss →
    ss !! k = Some s →
    (∀ i s', (i < k)%nat → ss !! i = Some s' →
             is_Some (roundtrip env (length (sent st) + i) (request_for s'))) →
    roundtrip env (length (sent st) + k) (request_for s) = None →
    ∃ st' out,
      for_each rows step env st = (inl RequestFailed, st') ∧
      ticks st' = (ticks st + 2 * k + 1)%nat ∧
      sent st' = sent st ++ (request_for <$> take (S k) ss) ∧
      times st' = times st ++ elapsed_from env (ticks st) k ∧
      stdout st' = stdout st ++ out ∧
      length out = k ∧
      Forall measurement_line out.
Proof.
  induction rows as [|row rows IH]; intros ss st k s Hss Hk Hok Hfail.
  - apply Forall2_nil_inv_l in Hss as ->. discriminate.
  - apply Forall2_cons_inv_l in Hss as (s0 & ss' & Hrow & Hss' & ->).
    destruct k as [|k].
    + injection Hk as ->. rewrite Nat.add_0_r in Hfail.
      rewrite (for_each_cons_raise _ _ _ _ _ _ _
                 (step_request_failed env st row s Hrow Hfail)).
      eexists _, []. split; [reflexivity|].
      cbn [ticks sent stdout times take fmap list_fmap length elapsed_from].
      rewrite !app_nil_r.
      split; [lia|]. by repeat split.
    + cbn in Hk.
      destruct (Hok 0%nat s0 ltac:(lia) eq_refl) as [data Hdata].
      rewrite Nat.add_0_r in Hdata.
      pose proof (step_ok env st row s0 data Hrow Hdata) as Hstep.
      cbv zeta in Hstep.
      rewrite (for_each_cons_ok _ _ _ _ _ _ Hstep).
      match goal with |- context [for_each rows step env ?st1] =>
        destruct (IH ss' st1 k s Hss' Hk)
          as (st' & out & Hrun & Ht & Hs & Htm & Ho & Hlen & Hall)
      end.
      { intros i s' Hi Hs'. cbn [sent]. rewrite length_app. cbn [length].
        replace (length (sent st) + 1 + i)%nat with (length (sent st) + S i)%nat by lia.
        apply Hok; [lia|exact Hs']. }
      { cbn [sent]. rewrite length_app. cbn [length].
        replace (length (sent st) + 1 + k)%nat with (length (sent st) + S k)%nat by lia.
        exact Hfail. }
      cbn [ticks sent stdout times] in *.
      exists st', ([PyNum (Float (clock env (S (ticks st)) - clock env (ticks st))); data] :: out).
      split; [exact Hrun|].
      split; [lia|].
      split; [by rewrite Hs, <- app_assoc|].
      split; [by rewrite Htm, <- app_assoc|].
      split; [by rewrite Ho, <- app_assoc|].
      split; [cbn [length]; lia|].
      constructor; [by eexists _, _|exact Hall].
Qed.

(** Whatever the world answers, the loop sends the requests of a
    prefix of the rows, in order, and records one elapsed value for
    each answered request. *)
Lemma loop_trace (rows : list Row) :
  ∀ st, ∃ k n new out,
    (n ≤ k ≤ length rows)%nat ∧
    sent (for_each rows step env st).2 = sent st ++ new ∧
    Forall2 (λ row r, ∃ text, row !! "sentence" = Some text ∧ r = request_for text)
            (take k rows) new ∧
    times (for_each rows step env st).2 = times st ++ elapsed_from env (ticks st) n ∧
    stdout (for_each rows step env st).2 = stdout st ++ out ∧
    Forall measurement_line out ∧
    ((for_each rows step env st).1 = inr () → k = length rows ∧ n = length rows).
Proof.
  induction rows as [|row rows IH]; intros st.
  - exists 0%nat, 0%nat, [], []. cbn. rewrite !app_nil_r.
    repeat split; (lia || constructor).
  - destruct (row !! "sentence") as [text|] eqn:Hrow.
    2:{ rewrite (for_each_cons_raise _ _ _ _ _ _ _ (step_key_error env st row Hrow)).
        exists 0%nat, 0%nat, [], []. cbn. rewrite !app_nil_r.
        repeat split; (lia || constructor || discriminate). }
    destruct (roundtrip env (length (sent st)) (request_for text)) as [data|] eqn:Hrt.
    2:{ rewrite (for_each_cons_raise _ _ _ _ _ _ _
                   (step_request_failed env st row text Hrow Hrt)).
        exists 1%nat, 0%nat, [request_for text], []. cbn. rewrite !app_nil_r.
        repeat split; try (lia || constructor || discriminate).
        - by exists text.
        - constructor. }
    pose proof (step_ok env st row text data Hrow Hrt) as Hstep.
    cbv zeta in Hstep.
    rewrite (for_each_cons_ok _ _ _ _ _ _ Hstep).
    match goal with |- context [for_each rows step env ?st1] =>
      destruct (IH st1) as (k & n & new & out & Hkn & Hs & Hnew & Htm & Ho & Hall & Hend)
    end.
    rewrite Hs, Htm, Ho. cbn [ticks sent stdout times].
    exists (S k), (S n), (request_for text :: new),
      ([PyNum (Float (clock env (S (ticks st)) - clock env (ticks st))); data] :: out).
    split; [cbn [length]; lia|].
    split; [by rewrite <- app_assoc|].
    split; [cbn; constructor; [by exists text|exact Hnew]|].
    split; [by rewrite <- app_assoc|].
    split; [by rewrite <- app_assoc|].
    split; [constructor; [by eexists _, _|exact Hall]|].
    intros Hr. destruct (Hend Hr) as [-> ->]. by cbn.
Qed.

End loop.

(** ** The whole of [testing_highload.py] *)

Section highload_main.
Import testing_highload.

Lemma Z2float_0 : Z2float 0 = 0%float.
Proof. reflexivity. Qed.

Lemma length_elapsed_from env n : ∀ t, length (elapsed_from env t n) = n.
Proof. induction n as [|n IH]; intros t; cbn; [reflexivity|by rewrite IH]. Qed.

(** [sum] of floats: the running total starts as the float [0.0]. *)
Lemma fold_py_add_floats (xs : list float) :
  ∀ a, fold_left py_add (Float <$> xs) (Float a) = Float (fold_left PrimFloat.add xs a).
Proof. induction xs as [|x xs IH]; intros a; [reflexivity|apply IH]. Qed.

Lemma py_sum_floats x (xs : list float) :
  py_sum (Float <$> x :: xs) = Float (fold_left PrimFloat.add (x :: xs) 0%float).
Proof. unfold py_sum. cbn [fmap list_fmap fold_left]. apply fold_py_add_floats. Qed.

Lemma main_unavailable env st :
  read_csv env dataset = None → main env st = (inl DataUnavailable, st).
Proof. intros H. unfold main, pl_read_csv, mbind, M_bind. now rewrite H. Qed.

Lemma main_available env rows :
  read_csv env dataset = Some rows →
  main env init = (for_each rows step;; report) env init.
Proof. intros H. unfold main, pl_read_csv, mbind, M_bind. now rewrite H. Qed.

(** The last statement of the script, when [times] is not empty. *)
Lemma report_nonempty env st :
  times st ≠ [] →
  report env st =
    (inr (),
     {| ticks := ticks st; sent := sent st;
        stdout := stdout st ++
          [[PyStr "Average:"; PyNum (Float (arithmetic_mean (times st))); PyStr "sec"]];
        times := times st |}).
Proof.
  intros Hne. unfold report, get_times, lift, print, mbind, M_bind.
  destruct (times st) as [|x xs] eqn:Hts; [done|].
  rewrite py_sum_floats. unfold py_truediv, len, eq_zero, arithmetic_mean.
  destruct (Z.eqb_spec (Z.of_nat (length (x :: xs))) 0) as [H0|_]; [cbn in H0; lia|].
  reflexivity.
Qed.

(** ... and when it is empty: [0 / 0]. *)
Lemma report_empty env st :
  times st = [] → report env st = (inl ZeroDivisionError, st).
Proof.
  intros Hts. unfold report, get_times, lift, mbind, M_bind. now rewrite Hts.
Qed.

(** The report changes neither the requests sent nor [times]. *)
Lemma report_frame env st :
  sent (report env st).2 = sent st ∧ times (report env st).2 = times st.
Proof.
  destruct (times st) as [|x xs] eqn:Hts.
  - by rewrite report_empty.
  - rewrite report_nonempty; [done|congruence].
Qed.

Lemma summary_of_report st line :
  line = [PyStr "Average:"; PyNum (Float (arithmetic_mean (times st))); PyStr "sec"] →
  summary {| ticks := ticks st; sent := sent st;
             stdout := stdout st ++ [line]; times := times st |}
  = Some {| count := length (times st);
            mean_latency := arithmetic_mean (times st) |}.
Proof. intros ->. unfold summary. cbn [stdout times]. now rewrite last_snoc. Qed.

(** A line printed by [call] is never taken for the summary. *)
Lemma summary_measurements st out :
  stdout st = out → Forall measurement_line out → summary st = None.
Proof.
  intros Ho Hall. unfold summary. rewrite Ho.
  destruct (last out) as [line|] eqn:Hlast; [|reflexivity].
  apply last_Some_elem_of in Hlast.
  rewrite Forall_forall in Hall.
  destruct (Hall _ Hlast) as (e & data & ->). reflexivity.
Qed.

(** A complete run: what the script has done when every request of a
    non-empty data set was answered. *)
Lemma main_success env rows ss :
  read_csv env dataset = Some rows →
  sentences_of rows ss →
  ss ≠ [] →
  (∀ i s, ss !! i = Some s → is_Some (roundtrip env i (request_for s))) →
  ∃ st',
    main env init = (inr (), st') ∧
    sent st' = request_for <$> ss ∧
    times st' = elapsed_from env 0 (length ss) ∧
    summary st' = Some {| count := length ss;
                          mean_latency := arithmetic_mean (times st') |}.
Proof.
  intros Hcsv Hss Hne Hok.
  rewrite (main_available _ _ Hcsv).
  destruct (loop_success env rows ss init Hss Hok)
    as (st1 & out & Hrun & Ht & Hs & Htm & Ho & Hlen & Hall).
  rewrite (Forall2_length _ _ _ Hss) in Htm.
  cbn [sent times stdout ticks init app] in *.
  assert (Hts : times st1 ≠ []).
  { rewrite Htm. destruct ss; [done|]. discriminate. }
  rewrite (bind_ok _ _ _ _ _ _ Hrun), (report_nonempty _ _ Hts).
  eexists. split; [reflexivity|]. cbn [sent times].
  split; [exact Hs|]. split; [exact Htm|].
  rewrite (summary_of_report st1 _ eq_refl).
  rewrite Htm at 1. by rewrite length_elapsed_from.
Qed.

End highload_main.

(** ** Requests sent by a pass *)

Section passes.

(** A loop sends only requests that its body sends. *)
Lemma for_each_sent {A} (body : A → M unit) (P : Request → Prop) :
  (∀ x env st, ∃ new, sent (body x env st).2 = sent st ++ new ∧ Forall P new) →
  ∀ xs env st, ∃ new,
    sent (for_each xs body env st).2 = sent st ++ new ∧ Forall P new.
Proof.
  intros Hbody xs env. induction xs as [|x xs IH]; intros st.
  - exists []. cbn. by rewrite app_nil_r.
  - destruct (Hbody x env st) as (new1 & Hs1 & Hp1).
    cbn [for_each]. unfold mbind, M_bind.
    destruct (body x env st) as [[e|[]] st1]; cbn [snd] in *.
    + by exists new1.
    + destruct (IH st1) as (new2 & Hs2 & Hp2).
      exists (new1 ++ new2). rewrite Hs2, Hs1, <- app_assoc.
      split; [reflexivity|by apply Forall_app].
Qed.

Lemma seq_sent (m1 m2 : M unit) (P : Request → Prop) env st :
  (∀ st, ∃ new, sent (m1 env st).2 = sent st ++ new ∧ Forall P new) →
  (∀ st, ∃ new, sent (m2 env st).2 = sent st ++ new ∧ Forall P new) →
  ∃ new, sent ((m1;; m2) env st).2 = sent st ++ new ∧ Forall P new.
Proof.
  intros H1 H2. destruct (H1 st) as (new1 & Hs1 & Hp1).
  unfold mbind, M_bind.
  destruct (m1 env st) as [[e|[]] st1]; cbn [snd] in *.
  - by exists new1.
  - destruct (H2 st1) as (new2 & Hs2 & Hp2).
    exists (new1 ++ new2). rewrite Hs2, Hs1, <- app_assoc.
    split; [reflexivity|by apply Forall_app].
Qed.

(** [testing.py]: each call sends exactly one request, answered or not. *)
Lemma testing_call_sent text env st :
  sent (testing.call text env st).2
  = sent st ++ [translation_request "en" "uk" (PyStr text)].
Proof.
  unfold testing.call, requests_post, resp_json, mbind, M_bind. cbn.
  destruct (server env _ _) as [[code [data|]]|]; reflexivity.
Qed.

Lemma testing_call_back_sent text env st :
  sent (testing.call_back text env st).2
  = sent st ++ [translation_request "uk" "en" (PyStr text)].
Proof.
  unfold testing.call_back, requests_post, resp_json, mbind, M_bind. cbn.
  destruct (server env _ _) as [[code [data|]]|]; reflexivity.
Qed.

(** [testing_highload.py]: one iteration sends at most one request, the
    one carrying the row's sentence. *)
Lemma step_sent row env st :
  ∃ new,
    sent (testing_highload.step row env st).2 = sent st ++ new ∧
    Forall (λ r, ∃ text, row !! "sentence" = Some text ∧
                         r = translation_request "uk" "en" text) new.
Proof.
  destruct (row !! "sentence") as [text|] eqn:Hrow.
  - exists [translation_request "uk" "en" text].
    split; [|constructor; [by exists text|constructor]].
    destruct (roundtrip env (length (sent st)) (translation_request "uk" "en" text))
      as [data|] eqn:Hrt.
    + by rewrite (step_ok env st row text data Hrow Hrt).
    + by rewrite (step_request_failed env st row text Hrow Hrt).
  - exists []. rewrite (step_key_error env st row Hrow). cbn.
    by rewrite app_nil_r.
Qed.

End passes.

(** ** What the whole run of [testing_highload.py] leaves behind *)

Section highload_trace.
Import testing_highload.

Lemma then_report_frame (m : M unit) env st :
  sent ((m;; report) env st).2 = sent (m env st).2 ∧
  times ((m;; report) env st).2 = times (m env st).2 ∧
  (((m;; report) env st).1 = inr () → (m env st).1 = inr ()).
Proof.
  unfold mbind, M_bind.
  destruct (m env st) as [[e|[]] st1]; cbn [fst snd]; [done|].
  destruct (report_frame env st1) as [-> ->]. done.
Qed.

(** Whatever the world answers: the requests sent are those of a prefix
    of the rows, in row order, and [times] holds the elapsed values of
    the answered ones. *)
Lemma main_trace env rows :
  read_csv env dataset = Some rows →
  ∃ k n,
    (n ≤ k ≤ length rows)%nat ∧
    Forall2 (λ row r, ∃ text, row !! "sentence" = Some text ∧
                              r = translation_request "uk" "en" text)
            (take k rows) (sent (main env init).2) ∧
    times (main env init).2 = elapsed_from env 0 n ∧
    ((main env init).1 = inr () → k = length rows).
Proof.
  intros Hcsv. rewrite (main_available _ _ Hcsv).
  destruct (then_report_frame (for_each rows step) env init) as (-> & -> & Hres).
  destruct (loop_trace env rows init)
    as (k & n & new & out & Hkn & Hs & Hnew & Htm & _ & _ & Hend).
  exists k, n. rewrite Hs, Htm. cbn [sent times ticks init app].
  repeat split; try lia; [exact Hnew|].
  intros Hr. by destruct (Hend (Hres Hr)).
Qed.

(** The run depends on the environment through the clock and the
    transport only, once the rows are read. *)
Lemma step_env rc1 rc2 clk srv (row : Row) st :
  step row (mkEnv rc1 clk srv) st = step row (mkEnv rc2 clk srv) st.
Proof.
  unfold step, call, getitem, requests_post, resp_json, mbind, M_bind. cbn.
  destruct (row !! "sentence"); [cbn|reflexivity].
  destruct (srv _ _) as [[code [data|]]|]; reflexivity.
Qed.

Lemma loop_env rc1 rc2 clk srv (rows : list Row) :
  ∀ st, for_each rows step (mkEnv rc1 clk srv) st
        = for_each rows step (mkEnv rc2 clk srv) st.
Proof.
  induction rows as [|row rows IH]; intros st; [reflexivity|].
  cbn [for_each]. unfold mbind, M_bind.
  rewrite (step_env rc1 rc2).
  destruct (step row (mkEnv rc2 clk srv) st) as [[e|[]] st1]; [reflexivity|apply IH].
Qed.

End highload_trace.

(** ** The concrete worlds *)

Module DemoFacts.
Import testing_highload.

Lemma rows_sentences : sentences_of Demo.rows Demo.sentences.
Proof. repeat (constructor; [vm_compute; reflexivity|]). constructor. Qed.

Lemma wall_clock_monotone : monotone_clock Demo.world.
Proof.
  split.
  - intros i. do 10 (destruct i as [|i]; [reflexivity|]). by destruct i.
  - intros i j Hij. cbn [clock Demo.world].
    do 10 (destruct i as [|i];
           [do 10 (destruct j as [|j]; [first [reflexivity|lia]|]); by destruct j|]).
    do 10 (destruct j as [|j]; [lia|]). by destruct i, j.
Qed.

(** The run of the five-row world: five measurements, mean 0.5 s. *)
Example complete_run :
  (main Demo.world init).1 = inr () ∧
  times (main Demo.world init).2 = [0.125; 0.25; 0.5; 0.125; 1.5]%float ∧
  summary (main Demo.world init).2 = Some {| count := 5; mean_latency := 0.5 |}.
Proof. by vm_compute. Qed.

(** The third request raises: two measurements, three requests. *)
Example aborted_run :
  (main Demo.faulty_world init).1 = inl RequestFailed ∧
  times (main Demo.faulty_world init).2 = [0.125; 0.25]%float ∧
  length (sent (main Demo.faulty_world init).2) = 3%nat ∧
  length (stdout (main Demo.faulty_world init).2) = 2%nat.
Proof. by vm_compute. Qed.

(** [testing.py] against a server that answers: twenty requests. *)
Example smoke_run :
  (testing.main Demo.world init).1 = inr () ∧
  length (sent (testing.main Demo.world init).2) = 20%nat.
Proof. by vm_compute. Qed.

End DemoFacts.

(** * The properties of the specification *)

Section claims.
Import testing_highload.

(** C1 (the code departs from it): on a data set without rows the
    script does not stop with a count of zero; its last statement
    divides the integer sum [0] by the length [0] and the run ends with
    [ZeroDivisionError], nothing sent and nothing printed. *)
Theorem empty_dataset_divides_by_zero env :
  read_csv env dataset = Some [] →
  main env init = (inl ZeroDivisionError, init).
Proof. intros Hcsv. by rewrite (main_available _ _ Hcsv). Qed.

Lemma empty_dataset_divides_by_zero_witness :
  main Demo.empty_world init = (inl ZeroDivisionError, init).
Proof. apply (empty_dataset_divides_by_zero Demo.empty_world). reflexivity. Defined.

(** C2: when the request for the sentence at index [k] (counted from 0)
    is the first to fail, the script ends with [RequestFailed]; the
    requests sent are those of the sentences up to index [k] and no
    later one, [times] holds the [k] elapsed values of the earlier
    items only, and no summary is reported. *)
Theorem request_failure_aborts env rows ss k s :
  read_csv env dataset = Some rows →
  sentences_of rows ss →
  ss !! k = Some s →
  (∀ i s', (i < k)%nat → ss !! i = Some s' → is_Some (roundtrip env i (request_for s'))) →
  roundtrip env k (request_for s) = None →
  ∃ st',
    main env init = (inl RequestFailed, st') ∧
    sent st' = request_for <$> take (S k) ss ∧
    times st' = elapsed_from env 0 k ∧
    summary st' = None.
Proof.
  intros Hcsv Hss Hk Hok Hfail.
  rewrite (main_available _ _ Hcsv).
  destruct (loop_abort env rows ss init k s Hss Hk Hok Hfail)
    as (st' & out & Hrun & _ & Hs & Htm & Ho & _ & Hall).
  exists st'. rewrite (bind_raise _ _ _ _ _ _ Hrun).
  repeat split; [exact Hs|exact Htm|].
  by apply (summary_measurements st' out).
Qed.

Lemma request_failure_aborts_witness :
  ∃ st',
    main Demo.faulty_world init = (inl RequestFailed, st') ∧
    sent st' = request_for <$> take 3 Demo.sentences ∧
    times st' = elapsed_from Demo.faulty_world 0 2 ∧
    summary st' = None.
Proof.
  apply (request_failure_aborts Demo.faulty_world Demo.rows Demo.sentences 2
           (PyStr "Це дуже цікаво.")).
  - reflexivity.
  - apply DemoFacts.rows_sentences.
  - reflexivity.
  - intros [|[|i]] s' Hi _; [by eexists..|lia].
  - reflexivity.
Defined.

(** C3: when every request of a non-empty pass is answered, the mean
    that the script reports is the sum of the recorded elapsed values
    divided by their number, whatever the clock shows; the recorded
    values are the differences of consecutive pairs of readings. *)
Theorem mean_latency_is_arithmetic_mean env rows ss :
  read_csv env dataset = Some rows →
  sentences_of rows ss →
  ss ≠ [] →
  (∀ i s, ss !! i = Some s → is_Some (roundtrip env i (request_for s))) →
  ∃ st' report,
    main env init = (inr (), st') ∧
    times st' = elapsed_from env 0 (length ss) ∧
    summary st' = Some report ∧
    mean_latency report = arithmetic_mean (elapsed_from env 0 (length ss)).
Proof.
  intros Hcsv Hss Hne Hok.
  destruct (main_success env rows ss Hcsv Hss Hne Hok) as (st' & Hrun & _ & Htm & Hsum).
  eexists st', _. repeat split; [exact Hrun|exact Htm|exact Hsum|].
  cbn [mean_latency]. by rewrite Htm.
Qed.

Lemma mean_latency_is_arithmetic_mean_witness :
  ∃ st' report,
    main Demo.world init = (inr (), st') ∧
    times st' = elapsed_from Demo.world 0 5 ∧
    summary st' = Some report ∧
    mean_latency report = arithmetic_mean (elapsed_from Demo.world 0 5).
Proof.
  apply (mean_latency_is_arithmetic_mean Demo.world Demo.rows Demo.sentences).
  - reflexivity.
  - apply DemoFacts.rows_sentences.
  - discriminate.
  - intros i s _. by eexists.
Defined.

(** C4: over a non-empty sequence of [N] sentences and a transport that
    answers every request, the script completes, [times] has exactly
    [N] entries, [N] requests were sent and the reported summary has
    count [N]. *)
Theorem one_measurement_per_sentence env rows ss :
  read_csv env dataset = Some rows →
  sentences_of rows ss →
  ss ≠ [] →
  always_succeeds env →
  ∃ st' report,
    main env init = (inr (), st') ∧
    length (times st') = length ss ∧
    length (sent st') = length ss ∧
    summary st' = Some report ∧
    count report = length ss.
Proof.
  intros Hcsv Hss Hne Hok.
  destruct (main_success env rows ss Hcsv Hss Hne) as (st' & Hrun & Hs & Htm & Hsum).
  { intros i s _. apply Hok. }
  eexists st', _. repeat split; [exact Hrun| | |exact Hsum|reflexivity].
  - by rewrite Htm, length_elapsed_from.
  - by rewrite Hs, length_fmap.
Qed.

Lemma one_measurement_per_sentence_witness :
  ∃ st' report,
    main Demo.world init = (inr (), st') ∧
    length (times st') = 5%nat ∧
    length (sent st') = 5%nat ∧
    summary st' = Some report ∧
    count report = 5%nat.
Proof.
  apply (one_measurement_per_sentence Demo.world Demo.rows Demo.sentences).
  - reflexivity.
  - apply DemoFacts.rows_sentences.
  - discriminate.
  - intros k r. by eexists.
Defined.

(** Whatever the world answers, the loop sends the requests of a prefix
    of the rows, each at its own position, and the prefix reaches every
    row whose predecessors all had a sentence and an answer. *)
Lemma loop_prefix env (rows : list Row) :
  ∀ st, ∃ k new,
    (k ≤ length rows)%nat ∧
    sent (for_each rows step env st).2 = sent st ++ new ∧
    Forall2 (λ row r, ∃ text, row !! "sentence" = Some text ∧ r = request_for text)
            (take k rows) new ∧
    (∀ j row s,
       rows !! j = Some row → row !! "sentence" = Some s →
       (∀ i row', (i < j)%nat → rows !! i = Some row' →
          ∃ s', row' !! "sentence" = Some s' ∧
                is_Some (roundtrip env (length (sent st) + i) (request_for s'))) →
       (j < k)%nat).
Proof.
  induction rows as [|row rows IH]; intros st.
  - exists 0%nat, []. cbn. rewrite app_nil_r.
    split; [lia|]. split; [done|]. split; [constructor|]. intros j row s Hj. done.
  - destruct (row !! "sentence") as [text|] eqn:Hrow.
    2:{ rewrite (for_each_cons_raise _ _ _ _ _ _ _ (step_key_error env st row Hrow)).
        exists 0%nat, []. cbn [snd sent take]. rewrite app_nil_r.
        split; [lia|]. split; [done|]. split; [constructor|].
        intros [|j] row' s Hj Hs Hprev.
        { injection Hj as <-. congruence. }
        destruct (Hprev 0%nat row ltac:(lia) eq_refl) as (s' & Hs' & _). congruence. }
    destruct (roundtrip env (length (sent st)) (request_for text)) as [data|] eqn:Hrt.
    2:{ rewrite (for_each_cons_raise _ _ _ _ _ _ _
                   (step_request_failed env st row text Hrow Hrt)).
        exists 1%nat, [request_for text]. cbn [snd sent take length].
        split; [lia|]. split; [done|].
        split; [constructor; [by exists text|constructor]|].
        intros [|j] row' s Hj Hs Hprev; [lia|].
        destruct (Hprev 0%nat row ltac:(lia) eq_refl) as (s' & Hs' & Hsome).
        rewrite Nat.add_0_r in Hsome.
        assert (s' = text) as -> by congruence.
        rewrite Hrt in Hsome. by destruct Hsome. }
    pose proof (step_ok env st row text data Hrow Hrt) as Hstep.
    cbv zeta in Hstep.
    rewrite (for_each_cons_ok _ _ _ _ _ _ Hstep).
    match goal with |- context [for_each rows step env ?st1] =>
      destruct (IH st1) as (k & new & Hk & Hs & Hnew & Hreach)
    end.
    cbn [sent] in Hs, Hreach. rewrite length_app in Hreach. cbn [length] in Hreach.
    exists (S k), (request_for text :: new). rewrite Hs, <- app_assoc.
    split; [cbn [length]; lia|]. split; [done|].
    split; [cbn [take]; constructor; [by exists text|exact Hnew]|].
    intros [|j] row' s Hj Hs' Hprev; [lia|].
      apply ->Nat.succ_lt_mono. apply (Hreach j row' s Hj Hs').
      intros i row'' Hi Hrow''.
      destruct (Hprev (S i) row'' ltac:(lia) Hrow'') as (s'' & Hs'' & Hsome).
      exists s''. split; [done|].
      by replace (length (sent st) + 1 + i)%nat with (length (sent st) + S i)%nat by lia.
Qed.

(** C5: the requests sent are those of a prefix of the rows, the [i]-th
    request being the one for the sentence of the [i]-th row, so that
    nothing is reordered or repeated; nothing is skipped either: the
    request for a sentence is sent, at its own position, as soon as the
    rows before it had their sentences answered; and when every request
    is answered the requests sent are exactly those of the whole
    sentence sequence, in its order. *)
Theorem requests_follow_input_order env rows :
  read_csv env dataset = Some rows →
  (length (sent (main env init).2) ≤ length rows)%nat ∧
  (∀ i r, sent (main env init).2 !! i = Some r →
          ∃ row text, rows !! i = Some row ∧
                      row !! "sentence" = Some text ∧
                      r = request_for text ∧
                      field (json r) "text" = Some text) ∧
  (∀ j row s,
     rows !! j = Some row → row !! "sentence" = Some s →
     (∀ i row', (i < j)%nat → rows !! i = Some row' →
        ∃ s', row' !! "sentence" = Some s' ∧ is_Some (roundtrip env i (request_for s'))) →
     sent (main env init).2 !! j = Some (request_for s)) ∧
  (∀ ss, sentences_of rows ss →
         (∀ i s, ss !! i = Some s → is_Some (roundtrip env i (request_for s))) →
         sent (main env init).2 = request_for <$> ss).
Proof.
  intros Hcsv. rewrite (main_available _ _ Hcsv).
  destruct (then_report_frame (for_each rows step) env init) as (-> & _ & _).
  destruct (loop_prefix env rows init) as (k & new & Hk & Hs & Hnew & Hreach).
  cbn [sent init app] in Hs. rewrite Hs.
  split_and!.
  - rewrite <- (Forall2_length _ _ _ Hnew), length_take. lia.
  - intros i r Hi.
    destruct (Forall2_lookup_r _ _ _ _ _ Hnew Hi) as (row & Hrow & text & Htext & ->).
    apply lookup_take_Some in Hrow as [Hrow _].
    by exists row, text.
  - intros j row s Hj Hrow Hprev.
    pose proof (Hreach j row s Hj Hrow Hprev) as Hlt.
    assert (Hjk : take k rows !! j = Some row) by (by rewrite lookup_take_lt).
    destruct (Forall2_lookup_l _ _ _ _ _ Hnew Hjk) as (r & Hr & text & Htext & ->).
    rewrite Hr. congruence.
  - intros ss Hss Hok.
    destruct (loop_success env rows ss init Hss Hok)
      as (st' & out & Hrun & _ & Hsent & _).
    rewrite Hrun in Hs. cbn [snd] in Hs. rewrite <- Hs. exact Hsent.
Qed.

Lemma requests_follow_input_order_witness :
  (length (sent (main Demo.world init).2) ≤ length Demo.rows)%nat ∧
  (∀ i r, sent (main Demo.world init).2 !! i = Some r →
          ∃ row text, Demo.rows !! i = Some row ∧
                      row !! "sentence" = Some text ∧
                      r = request_for text ∧
                      field (json r) "text" = Some text) ∧
  (∀ j row s,
     Demo.rows !! j = Some row → row !! "sentence" = Some s →
     (∀ i row', (i < j)%nat → Demo.rows !! i = Some row' →
        ∃ s', row' !! "sentence" = Some s' ∧
              is_Some (roundtrip Demo.world i (request_for s'))) →
     sent (main Demo.world init).2 !! j = Some (request_for s)) ∧
  (∀ ss, sentences_of Demo.rows ss →
         (∀ i s, ss !! i = Some s → is_Some (roundtrip Demo.world i (request_for s))) →
         sent (main Demo.world init).2 = request_for <$> ss).
Proof.
  apply (requests_follow_input_order Demo.world Demo.rows). reflexivity.
Defined.

(** C6: within one pass every request carries the same pair of language
    codes: [en]/[uk] for a pass of [call] of [testing.py], [uk]/[en]
    for a pass of [call_back] and for the measuring loop of
    [testing_highload.py]; the two passes of [testing.py] follow each
    other, the first all [en]/[uk], the second all [uk]/[en]. *)
Theorem direction_fixed_within_pass env st :
  (∀ ss, ∃ new, sent (for_each ss testing.call env st).2 = sent st ++ new ∧
                Forall (has_direction "en" "uk") new) ∧
  (∀ ss, ∃ new, sent (for_each ss testing.call_back env st).2 = sent st ++ new ∧
                Forall (has_direction "uk" "en") new) ∧
  (∀ rows, ∃ new, sent (for_each rows step env st).2 = sent st ++ new ∧
                  Forall (has_direction "uk" "en") new) ∧
  (∃ first second,
      sent (testing.main env st).2 = sent st ++ first ++ second ∧
      Forall (has_direction "en" "uk") first ∧
      Forall (has_direction "uk" "en") second).
Proof.
  assert (Hcall : ∀ ss st0, ∃ new,
             sent (for_each ss testing.call env st0).2 = sent st0 ++ new ∧
             Forall (has_direction "en" "uk") new).
  { intros ss st0. apply for_each_sent. intros text env' st'.
    exists [translation_request "en" "uk" (PyStr text)].
    split; [apply testing_call_sent|by repeat constructor]. }
  assert (Hback : ∀ ss st0, ∃ new,
             sent (for_each ss testing.call_back env st0).2 = sent st0 ++ new ∧
             Forall (has_direction "uk" "en") new).
  { intros ss st0. apply for_each_sent. intros text env' st'.
    exists [translation_request "uk" "en" (PyStr text)].
    split; [apply testing_call_back_sent|by repeat constructor]. }
  split; [intros ss; apply Hcall|]. split; [intros ss; apply Hback|]. split.
  - intros rows. apply for_each_sent. intros row env' st'.
    destruct (step_sent row env' st') as (new & Hs & Hall).
    exists new. split; [exact Hs|].
    eapply Forall_impl; [exact Hall|]. by intros r (text & _ & ->).
  - unfold testing.main, mbind, M_bind.
    destruct (Hcall testing.sentences_ukrainian st) as (first & Hs1 & Hp1).
    destruct (for_each testing.sentences_ukrainian testing.call env st)
      as [[e|[]] st1]; cbn [snd] in *.
    + exists first, []. by rewrite app_nil_r.
    + destruct (Hback testing.sentences_english st1) as (second & Hs2 & Hp2).
      exists first, second. by rewrite Hs2, Hs1, <- app_assoc.
Qed.

(** C7: when the data set cannot be fetched or parsed the script ends
    at once with [DataUnavailable] and leaves the state as it found it:
    no request sent, no clock read, nothing recorded or printed. *)
Theorem dataset_unavailable_aborts env st :
  read_csv env dataset = None →
  main env st = (inl DataUnavailable, st).
Proof. apply main_unavailable. Qed.

Lemma dataset_unavailable_aborts_witness :
  main Demo.offline_world init = (inl DataUnavailable, init).
Proof. apply (dataset_unavailable_aborts Demo.offline_world init). reflexivity. Defined.

(** C8: every request that either script sends is a POST to the
    endpoint whose JSON body has exactly the fields [text],
    [source_lang] and [target_lang]; [text] is a sentence of the list
    being sent ([testing.py]) or the sentence cell of a row of the data
    set ([testing_highload.py]). *)
Theorem requests_match_wire_contract env r :
  (r ∈ sent (testing.main env init).2 →
     wire_request r ∧
     ∃ s, s ∈ testing.sentences_ukrainian ++ testing.sentences_english ∧
          field (json r) "text" = Some (PyStr s)) ∧
  (r ∈ sent (main env init).2 →
     wire_request r ∧
     ∃ rows row, read_csv env dataset = Some rows ∧ row ∈ rows ∧
                 row !! "sentence" = field (json r) "text").
Proof.
  assert (Hwire : ∀ src tgt text, wire_request (translation_request src tgt text)).
  { intros src tgt text. unfold wire_request. cbn.
    repeat split; by eexists. }
  split.
  - set (P := λ r : Request, wire_request r ∧ ∃ s,
                s ∈ testing.sentences_ukrainian ++ testing.sentences_english ∧
                field (json r) "text" = Some (PyStr s)).
    assert (Hcall : ∀ ss st0, ss ⊆ testing.sentences_ukrainian ++ testing.sentences_english →
              ∃ new, sent (for_each ss testing.call env st0).2 = sent st0 ++ new ∧ Forall P new).
    { induction ss as [|s ss IH]; intros st0 Hsub.
      - exists []. cbn. by rewrite app_nil_r.
      - cbn [for_each]. unfold mbind, M_bind.
        pose proof (testing_call_sent s env st0) as Hs1.
        destruct (testing.call s env st0) as [[e|[]] st1]; cbn [snd] in *.
        + eexists. split; [exact Hs1|]. constructor; [|constructor].
          split; [apply Hwire|]. exists s. split; [apply Hsub; by left|done].
        + destruct (IH st1) as (new & Hs2 & Hp2).
          { intros x Hx. apply Hsub. by right. }
          eexists (_ :: new). rewrite Hs2, Hs1, <- app_assoc. split; [done|].
          constructor; [|exact Hp2].
          split; [apply Hwire|]. exists s. split; [apply Hsub; by left|done]. }
    assert (Hback : ∀ ss st0, ss ⊆ testing.sentences_ukrainian ++ testing.sentences_english →
              ∃ new, sent (for_each ss testing.call_back env st0).2 = sent st0 ++ new ∧ Forall P new).
    { induction ss as [|s ss IH]; intros st0 Hsub.
      - exists []. cbn. by rewrite app_nil_r.
      - cbn [for_each]. unfold mbind, M_bind.
        pose proof (testing_call_back_sent s env st0) as Hs1.
        destruct (testing.call_back s env st0) as [[e|[]] st1]; cbn [snd] in *.
        + eexists. split; [exact Hs1|]. constructor; [|constructor].
          split; [apply Hwire|]. exists s. split; [apply Hsub; by left|done].
        + destruct (IH st1) as (new & Hs2 & Hp2).
          { intros x Hx. apply Hsub. by right. }
          eexists (_ :: new). rewrite Hs2, Hs1, <- app_assoc. split; [done|].
          constructor; [|exact Hp2].
          split; [apply Hwire|]. exists s. split; [apply Hsub; by left|done]. }
    destruct (seq_sent (for_each testing.sentences_ukrainian testing.call)
                (for_each testing.sentences_english testing.call_back) P env init)
      as (new & Hs & Hp).
    { intros st0. apply Hcall. intros x Hx. apply elem_of_app. by left. }
    { intros st0. apply Hback. intros x Hx. apply elem_of_app. by right. }
    unfold testing.main. rewrite Hs. cbn [sent init app].
    intros Hr. rewrite Forall_forall in Hp. by apply Hp.
  - intros Hr.
    destruct (read_csv env dataset) as [rows|] eqn:Hcsv.
    2:{ rewrite (main_unavailable _ _ Hcsv) in Hr. cbn in Hr. by apply elem_of_nil in Hr. }
    destruct (main_trace env rows Hcsv) as (k & n & _ & Hsent & _).
    apply list_elem_of_lookup in Hr as [i Hi].
    destruct (Forall2_lookup_r _ _ _ _ _ Hsent Hi) as (row & Hrow & text & Htext & ->).
    split; [apply Hwire|].
    exists rows, row. split; [done|]. split; [|done].
    apply lookup_take_Some in Hrow as [Hrow _].
    apply list_elem_of_lookup. by exists i.
Qed.

Lemma elapsed_from_nonneg env n :
  monotone_clock env →
  ∀ t, Forall (λ e, (0 <=? e)%float = true) (elapsed_from env t n).
Proof.
  intros [Hfin Hmono]. induction n as [|n IH]; intros t; cbn [elapsed_from].
  - constructor.
  - constructor; [|apply IH].
    apply sub_nonneg; [apply Hfin|apply Hmono; lia].
Qed.

(** C9: the timer of an item is read before its request is sent and
    again after its answer is decoded, so [times] holds differences of
    consecutive pairs of readings; under a clock that shows finite
    times and never runs backwards each of them is at least zero. *)
Theorem elapsed_never_negative env :
  monotone_clock env →
  (∃ n, times (main env init).2 = elapsed_from env 0 n) ∧
  Forall (λ e, (0 <=? e)%float = true) (times (main env init).2).
Proof.
  intros Hclock.
  assert (Hn : ∃ n, times (main env init).2 = elapsed_from env 0 n).
  { destruct (read_csv env dataset) as [rows|] eqn:Hcsv.
    - destruct (main_trace env rows Hcsv) as (k & n & _ & _ & Htm & _). by exists n.
    - rewrite (main_unavailable _ _ Hcsv). by exists 0%nat. }
  split; [exact Hn|]. destruct Hn as [n ->]. by apply elapsed_from_nonneg.
Qed.

Lemma elapsed_never_negative_witness :
  (∃ n, times (main Demo.world init).2 = elapsed_from Demo.world 0 n) ∧
  Forall (λ e, (0 <=? e)%float = true) (times (main Demo.world init).2).
Proof.
  apply (elapsed_never_negative Demo.world). apply DemoFacts.wall_clock_monotone.
Defined.

(** C10: two data sets whose rows agree, one by one and in order, on
    the ["sentence"] cell give the same run under the same clock and
    transport: the same outcome, the same requests sent, the same
    [times] and the same lines printed, the reported mean included. *)
Theorem only_sentence_field_matters rc1 rc2 clk srv rows1 rows2 :
  rc1 dataset = Some rows1 →
  rc2 dataset = Some rows2 →
  Forall2 (λ row1 row2 : Row, row1 !! "sentence" = row2 !! "sentence") rows1 rows2 →
  main (mkEnv rc1 clk srv) init = main (mkEnv rc2 clk srv) init.
Proof.
  intros H1 H2 Hrows.
  rewrite (main_available (mkEnv rc1 clk srv) rows1 H1).
  rewrite (main_available (mkEnv rc2 clk srv) rows2 H2).
  unfold mbind, M_bind.
  rewrite (loop_ext _ rows1 rows2 Hrows), (loop_env rc1 rc2).
  destruct (for_each rows2 step _ init) as [[e|[]] st1]; reflexivity.
Qed.

Lemma only_sentence_field_matters_witness :
  main (mkEnv (λ _, Some Demo.rows) Demo.wall_clock Demo.third_fails) init
  = main (mkEnv (λ _, Some Demo.bare_rows) Demo.wall_clock Demo.third_fails) init.
Proof.
  apply (only_sentence_field_matters _ _ _ _ Demo.rows Demo.bare_rows);
    [reflexivity|reflexivity|].
  repeat (constructor; [vm_compute; reflexivity|]). constructor.
Defined.

End claims.

(** * Further properties of [testing_highload.py] *)

Section highload_ledger.
Import testing_highload.

Local Ltac by_books :=
  first [ lia | done | apply Forall2_nil_2
        | simplify_eq; by left | simplify_eq; by right ].

(** The books of the measuring loop, whatever the world answers: every
    recorded value has its printed line and its request, at most one
    request is left without a measurement, and the clock is read once
    for each request and once for each measurement, plus once when a row
    has no sentence. *)
Lemma loop_ledger env (rows : list Row) :
  ∀ st, ∃ new newt out,
    sent (for_each rows step env st).2 = sent st ++ new ∧
    times (for_each rows step env st).2 = times st ++ newt ∧
    stdout (for_each rows step env st).2 = stdout st ++ out ∧
    Forall2 measured newt out ∧
    (length newt ≤ length new ≤ S (length newt))%nat ∧
    (ticks st + length new + length newt ≤ ticks (for_each rows step env st).2
     ≤ S (ticks st + length new + length newt))%nat ∧
    ((for_each rows step env st).1 = inr () →
       length new = length rows ∧ length newt = length rows ∧
       ticks (for_each rows step env st).2 = (ticks st + 2 * length rows)%nat) ∧
    (∀ e, (for_each rows step env st).1 = inl e →
       rows ≠ [] ∧ (e = RequestFailed ∨ e = KeyError "sentence")).
Proof.
  induction rows as [|row rows IH]; intros st.
  - exists [], [], []. cbn. rewrite !app_nil_r.
    repeat split; by_books.
  - destruct (row !! "sentence") as [text|] eqn:Hrow.
    2:{ rewrite (for_each_cons_raise _ _ _ _ _ _ _ (step_key_error env st row Hrow)).
        exists [], [], []. cbn. rewrite !app_nil_r.
        repeat split; by_books. }
    destruct (roundtrip env (length (sent st)) (request_for text)) as [data|] eqn:Hrt.
    2:{ rewrite (for_each_cons_raise _ _ _ _ _ _ _
                   (step_request_failed env st row text Hrow Hrt)).
        exists [request_for text], [], []. cbn. rewrite !app_nil_r.
        repeat split; by_books. }
    pose proof (step_ok env st row text data Hrow Hrt) as Hstep.
    cbv zeta in Hstep.
    rewrite (for_each_cons_ok _ _ _ _ _ _ Hstep).
    match goal with |- context [for_each rows step env ?st1] =>
      destruct (IH st1) as (new & newt & out & Hs & Htm & Ho & Hm & Hc & Ht & Hend & Herr)
    end.
    rewrite Hs, Htm, Ho. cbn [ticks sent stdout times] in *.
    exists (request_for text :: new),
      ((clock env (S (ticks st)) - clock env (ticks st))%float :: newt),
      ([PyNum (Float (clock env (S (ticks st)) - clock env (ticks st))); data] :: out).
    split; [by rewrite <- app_assoc|].
    split; [by rewrite <- app_assoc|].
    split; [by rewrite <- app_assoc|].
    split; [constructor; [by exists data|exact Hm]|].
    cbn [length].
    split; [lia|]. split; [lia|]. split.
    + intros Hr. destruct (Hend Hr) as (-> & -> & ->). repeat split; lia.
    + intros e He. split; [discriminate|]. by destruct (Herr e He).
Qed.

(** The last statement in full. *)
Lemma report_cases env st :
  (times st = [] ∧ report env st = (inl ZeroDivisionError, st)) ∨
  (times st ≠ [] ∧
   report env st =
     (inr (), {| ticks := ticks st; sent := sent st;
                 stdout := stdout st ++ [average_line (times st)];
                 times := times st |})).
Proof.
  destruct (times st) as [|x xs] eqn:Hts.
  - left. split; [done|]. by apply report_empty.
  - right. split; [done|]. rewrite <- Hts. apply report_nonempty. congruence.
Qed.

(** The books of the whole script. *)
Lemma main_ledger env :
  ∃ out tail,
    stdout (main env init).2 = out ++ tail ∧
    Forall2 measured (times (main env init).2) out ∧
    (tail = [] ∧ (main env init).1 ≠ inr () ∨
     tail = [average_line (times (main env init).2)] ∧
       (main env init).1 = inr () ∧ times (main env init).2 ≠ []) ∧
    (length (times (main env init).2) ≤ length (sent (main env init).2)
     ≤ S (length (times (main env init).2)))%nat ∧
    (length (sent (main env init).2) + length (times (main env init).2)
     ≤ ticks (main env init).2
     ≤ S (length (sent (main env init).2) + length (times (main env init).2)))%nat ∧
    ((main env init).1 = inl ZeroDivisionError → read_csv env dataset = Some []) ∧
    ((main env init).1 = inr () →
       ∃ rows, read_csv env dataset = Some rows ∧ rows ≠ [] ∧
               length (sent (main env init).2) = length rows ∧
               length (times (main env init).2) = length rows ∧
               ticks (main env init).2 = (2 * length rows)%nat).
Proof.
  destruct (read_csv env dataset) as [rows|] eqn:Hcsv.
  2:{ rewrite (main_unavailable _ _ Hcsv). exists [], []. cbn.
      repeat split; by_books. }
  rewrite (main_available _ _ Hcsv).
  destruct (loop_ledger env rows init)
    as (new & newt & out & Hs & Htm & Ho & Hm & Hc & Ht & Hend & Herr).
  unfold mbind, M_bind.
  destruct (for_each rows step env init) as [[e|[]] st1]; cbn [fst snd] in *;
    cbn [sent times stdout ticks init app] in *.
  - (* the loop raised *)
    destruct (Herr e eq_refl) as [Hne He].
    exists out, []. rewrite Ho, Htm, Hs, app_nil_r. split_and!; try (lia || done).
    + left. split; [done|discriminate].
    + intros [= ->]. by destruct He.
  - (* the loop ran to its end *)
    destruct (Hend eq_refl) as (Hln & Hlt & Htk).
    destruct (report_cases env st1) as [[Hts ->]|[Hts ->]];
      cbn [fst snd sent times stdout ticks].
    + (* no row at all *)
      assert (rows = []) as ->.
      { destruct rows; [done|]. apply (f_equal length) in Hts.
        rewrite Htm in Hts. cbn in Hts, Hlt. lia. }
      exists out, []. rewrite Ho, Htm, Hs, app_nil_r. split_and!; try (lia || done).
      left. split; [done|discriminate].
    + assert (rows ≠ []).
      { intros ->. destruct newt; [|discriminate]. by rewrite Htm in Hts. }
      exists out, [average_line (times st1)]. rewrite Ho, Htm, Hs.
      split_and!; try (lia || done).
      * right. by rewrite <- Htm.
      * intros _. exists rows. split_and!; (lia || done).
Qed.

End highload_ledger.

Section highload_transport.
Import testing_highload.

(** One iteration sees the transport through the decoded body only. *)
Lemma step_roundtrip_ext rc clk srv1 srv2 (row : Row) st :
  (∀ k r, srv1 k r ≫= payload = srv2 k r ≫= payload) →
  step row (mkEnv rc clk srv1) st = step row (mkEnv rc clk srv2) st.
Proof.
  intros Hsrv.
  destruct (row !! "sentence") as [text|] eqn:Hrow.
  2:{ by rewrite !step_key_error. }
  pose proof (Hsrv (length (sent st)) (request_for text)) as Hk.
  destruct (roundtrip (mkEnv rc clk srv1) (length (sent st)) (request_for text))
    as [data|] eqn:Hrt; pose proof Hrt as Hrt2;
    unfold roundtrip in Hrt2; cbn [server] in Hrt2; rewrite Hk in Hrt2.
  - by rewrite (step_ok _ _ _ text data Hrow Hrt),
               (step_ok (mkEnv rc clk srv2) st row text data Hrow Hrt2).
  - by rewrite (step_request_failed _ _ _ text Hrow Hrt),
               (step_request_failed (mkEnv rc clk srv2) st row text Hrow Hrt2).
Qed.

Lemma loop_roundtrip_ext rc clk srv1 srv2 (rows : list Row) :
  (∀ k r, srv1 k r ≫= payload = srv2 k r ≫= payload) →
  ∀ st, for_each rows step (mkEnv rc clk srv1) st
        = for_each rows step (mkEnv rc clk srv2) st.
Proof.
  intros Hsrv. induction rows as [|row rows IH]; intros st; [reflexivity|].
  cbn [for_each]. unfold mbind, M_bind.
  rewrite (step_roundtrip_ext rc clk srv1 srv2 row st Hsrv).
  destruct (step row (mkEnv rc clk srv2) st) as [[e|[]] st1]; [reflexivity|apply IH].
Qed.

(** One iteration does not look into the answers it prints. *)
Lemma step_opaque rc clk srv1 srv2 (row : Row) st1 st2 :
  (∀ k r, is_Some (srv1 k r ≫= payload) ↔ is_Some (srv2 k r ≫= payload)) →
  same_but_stdout st1 st2 →
  length (stdout st1) = length (stdout st2) →
  (step row (mkEnv rc clk srv1) st1).1 = (step row (mkEnv rc clk srv2) st2).1 ∧
  same_but_stdout (step row (mkEnv rc clk srv1) st1).2
                  (step row (mkEnv rc clk srv2) st2).2 ∧
  length (stdout (step row (mkEnv rc clk srv1) st1).2)
  = length (stdout (step row (mkEnv rc clk srv2) st2).2).
Proof.
  intros Hsrv (Ht & Hs & Htm) Hlen. unfold same_but_stdout.
  destruct (row !! "sentence") as [text|] eqn:Hrow.
  2:{ rewrite !step_key_error by done. cbn. by rewrite Ht, Hs, Htm. }
  pose proof (Hsrv (length (sent st2)) (request_for text)) as Hk.
  destruct (roundtrip (mkEnv rc clk srv1) (length (sent st1)) (request_for text))
    as [d1|] eqn:Hrt1;
    destruct (roundtrip (mkEnv rc clk srv2) (length (sent st2)) (request_for text))
      as [d2|] eqn:Hrt2.
  - rewrite (step_ok _ _ _ text d1 Hrow Hrt1), (step_ok _ _ _ text d2 Hrow Hrt2).
    cbn. rewrite !length_app, Ht, Hs, Htm, Hlen. done.
  - exfalso. unfold roundtrip in Hrt1, Hrt2. cbn [server] in Hrt1, Hrt2.
    rewrite Hs in Hrt1. rewrite Hrt1, Hrt2 in Hk.
    destruct Hk as [Hk _]. destruct Hk; [by eexists|done].
  - exfalso. unfold roundtrip in Hrt1, Hrt2. cbn [server] in Hrt1, Hrt2.
    rewrite Hs in Hrt1. rewrite Hrt1, Hrt2 in Hk.
    destruct Hk as [_ Hk]. destruct Hk; [by eexists|done].
  - rewrite (step_request_failed _ _ _ text Hrow Hrt1),
            (step_request_failed _ _ _ text Hrow Hrt2).
    cbn. by rewrite Ht, Hs, Htm.
Qed.

Lemma loop_opaque rc clk srv1 srv2 (rows : list Row) :
  (∀ k r, is_Some (srv1 k r ≫= payload) ↔ is_Some (srv2 k r ≫= payload)) →
  ∀ st1 st2,
    same_but_stdout st1 st2 →
    length (stdout st1) = length (stdout st2) →
    (for_each rows step (mkEnv rc clk srv1) st1).1
    = (for_each rows step (mkEnv rc clk srv2) st2).1 ∧
    same_but_stdout (for_each rows step (mkEnv rc clk srv1) st1).2
                    (for_each rows step (mkEnv rc clk srv2) st2).2 ∧
    length (stdout (for_each rows step (mkEnv rc clk srv1) st1).2)
    = length (stdout (for_each rows step (mkEnv rc clk srv2) st2).2).
Proof.
  intros Hsrv. induction rows as [|row rows IH]; intros st1 st2 Hsame Hlen; [done|].
  destruct (step_opaque rc clk srv1 srv2 row st1 st2 Hsrv Hsame Hlen) as (Hr & Hs & Hl).
  cbn [for_each]. unfold mbind, M_bind.
  destruct (step row (mkEnv rc clk srv1) st1) as [[e1|[]] st1'];
    destruct (step row (mkEnv rc clk srv2) st2) as [[e2|[]] st2'];
    cbn [fst snd] in *; try done.
  by apply IH.
Qed.

Lemma report_opaque env1 env2 st1 st2 :
  same_but_stdout st1 st2 →
  length (stdout st1) = length (stdout st2) →
  (report env1 st1).1 = (report env2 st2).1 ∧
  same_but_stdout (report env1 st1).2 (report env2 st2).2 ∧
  length (stdout (report env1 st1).2) = length (stdout (report env2 st2).2).
Proof.
  intros (Ht & Hs & Htm) Hlen. unfold same_but_stdout.
  destruct (report_cases env1 st1) as [[H1 ->]|[H1 ->]];
    destruct (report_cases env2 st2) as [[H2 ->]|[H2 ->]]; cbn; try congruence.
  - done.
  - by rewrite !length_app, Hlen.
Qed.

End highload_transport.

Section highload_extras.
Import testing_highload.

(** The row at index [k] is the first without a sentence cell, and the
    rows before it were answered: the loop stops at that row. *)
Lemma loop_key_error env (rows : list Row) :
  ∀ st k row,
    rows !! k = Some row →
    row !! "sentence" = None →
    (∀ i r, (i < k)%nat → rows !! i = Some r →
            ∃ s, r !! "sentence" = Some s ∧
                 is_Some (roundtrip env (length (sent st) + i) (request_for s))) →
    ∃ st' out,
      for_each rows step env st = (inl (KeyError "sentence"), st') ∧
      ticks st' = (ticks st + 2 * k + 1)%nat ∧
      length (sent st') = (length (sent st) + k)%nat ∧
      times st' = times st ++ elapsed_from env (ticks st) k ∧
      stdout st' = stdout st ++ out ∧
      length out = k ∧
      Forall measurement_line out.
Proof.
  induction rows as [|row0 rows IH]; intros st k row Hk Hrow Hok; [done|].
  destruct k as [|k].
  - injection Hk as ->.
    rewrite (for_each_cons_raise _ _ _ _ _ _ _ (step_key_error env st row Hrow)).
    eexists _, []. split; [reflexivity|].
    cbn [ticks sent stdout times elapsed_from length]. rewrite !app_nil_r.
    split_and!; (lia || done).
  - cbn in Hk.
    destruct (Hok 0%nat row0 ltac:(lia) eq_refl) as (s0 & Hrow0 & data & Hdata).
    rewrite Nat.add_0_r in Hdata.
    pose proof (step_ok env st row0 s0 data Hrow0 Hdata) as Hstep.
    cbv zeta in Hstep.
    rewrite (for_each_cons_ok _ _ _ _ _ _ Hstep).
    match goal with |- context [for_each rows step env ?st1] =>
      destruct (IH st1 k row Hk Hrow)
        as (st' & out & Hrun & Ht & Hs & Htm & Ho & Hlen & Hall)
    end.
    { intros i r Hi Hr. cbn [sent]. rewrite length_app. cbn [length].
      replace (length (sent st) + 1 + i)%nat with (length (sent st) + S i)%nat by lia.
      apply Hok; [lia|exact Hr]. }
    cbn [ticks sent stdout times] in *. rewrite length_app in Hs. cbn [length] in Hs.
    exists st', ([PyNum (Float (clock env (S (ticks st)) - clock env (ticks st))); data] :: out).
    split; [exact Hrun|].
    split; [lia|].
    split; [lia|].
    split; [by rewrite Htm, <- app_assoc|].
    split; [by rewrite Ho, <- app_assoc|].
    split; [cbn [length]; lia|].
    constructor; [by eexists _, _|exact Hall].
Qed.

(** The line printed for a recorded value holds that value and the
    decoded answer to the request of the same item. *)
Lemma loop_answers env (rows : list Row) :
  ∀ st i e,
    times (for_each rows step env st).2 !! (length (times st) + i)%nat = Some e →
    ∃ r data,
      sent (for_each rows step env st).2 !! (length (sent st) + i)%nat = Some r ∧
      roundtrip env (length (sent st) + i) r = Some data ∧
      stdout (for_each rows step env st).2 !! (length (stdout st) + i)%nat
      = Some [PyNum (Float e); data].
Proof.
  induction rows as [|row rows IH]; intros st i e He.
  - cbn in He. apply lookup_lt_Some in He. lia.
  - destruct (row !! "sentence") as [text|] eqn:Hrow.
    2:{ rewrite (for_each_cons_raise _ _ _ _ _ _ _ (step_key_error env st row Hrow)) in He.
        cbn in He. apply lookup_lt_Some in He. lia. }
    destruct (roundtrip env (length (sent st)) (request_for text)) as [data|] eqn:Hrt.
    2:{ rewrite (for_each_cons_raise _ _ _ _ _ _ _
                   (step_request_failed env st row text Hrow Hrt)) in He.
        cbn in He. apply lookup_lt_Some in He. lia. }
    pose proof (step_ok env st row text data Hrow Hrt) as Hstep.
    cbv zeta in Hstep.
    rewrite (for_each_cons_ok _ _ _ _ _ _ Hstep) in *.
    match goal with |- context [for_each rows step env ?st1] =>
      set (st1' := st1) in *;
      destruct (loop_ledger env rows st1') as (new & newt & out & Hs & Htm & Ho & _);
      specialize (IH st1')
    end.
    subst st1'. cbn [ticks sent stdout times] in *.
    destruct i as [|i].
    + rewrite Nat.add_0_r in *.
      rewrite Htm, <- app_assoc, lookup_app_r, Nat.sub_diag in He by lia.
      injection He as <-.
      exists (request_for text), data.
      rewrite Hs, Ho, <- !app_assoc, ?Nat.add_0_r.
      split_and!; [|done|]; by rewrite lookup_app_r, Nat.sub_diag by lia.
    + rewrite !length_app in IH. cbn [length] in IH.
      destruct (IH i e) as (r & d & Hr & Hd & Hline).
      { by replace (length (times st) + 1 + i)%nat with (length (times st) + S i)%nat by lia. }
      exists r, d.
      replace (length (sent st) + S i)%nat with (length (sent st) + 1 + i)%nat by lia.
      replace (length (stdout st) + S i)%nat with (length (stdout st) + 1 + i)%nat by lia.
      done.
Qed.

(** X1: every measurement that the script prints is the one it records:
    the printed lines are, in order, one line per entry of [times]
    holding that entry and the decoded answer to the request of the same
    position, followed by the average line when the run completes and by
    nothing otherwise. *)
Theorem printed_measurements_match_times env :
  ∃ out tail,
    stdout (main env init).2 = out ++ tail ∧
    length out = length (times (main env init).2) ∧
    (∀ i e, times (main env init).2 !! i = Some e →
       ∃ r data,
         sent (main env init).2 !! i = Some r ∧
         roundtrip env i r = Some data ∧
         out !! i = Some [PyNum (Float e); data]) ∧
    (tail = [] ∧ (main env init).1 ≠ inr () ∨
     tail = [average_line (times (main env init).2)] ∧ (main env init).1 = inr ()).
Proof.
  destruct (read_csv env dataset) as [rows|] eqn:Hcsv.
  2:{ rewrite (main_unavailable _ _ Hcsv). exists [], []. cbn.
      split_and!; try done. by left. }
  rewrite (main_available _ _ Hcsv).
  destruct (loop_ledger env rows init)
    as (new & newt & out & Hs & Htm & Ho & Hm & _ & _ & Hend & Herr).
  pose proof (loop_answers env rows init) as Hans.
  unfold mbind, M_bind.
  destruct (for_each rows step env init) as [[e|[]] st1]; cbn [fst snd] in *;
    cbn [sent times stdout init app length Nat.add] in *.
  - exists out, []. rewrite Ho, Htm, app_nil_r.
    split_and!; try done.
    + symmetry. by eapply Forall2_length.
    + intros i e0 Hi. rewrite <- Ho. apply Hans. by rewrite Htm.
    + by left.
  - destruct (report_cases env st1) as [[Hts ->]|[Hts ->]];
      cbn [fst snd sent times stdout].
    + exists out, []. rewrite Ho, Htm, app_nil_r.
      split_and!; try done.
      * symmetry. by eapply Forall2_length.
      * intros i e0 Hi. rewrite <- Ho. apply Hans. by rewrite Htm.
      * by left.
    + exists out, [average_line (times st1)]. rewrite Ho, Htm.
      split_and!; try done.
      * symmetry. by eapply Forall2_length.
      * intros i e0 Hi. rewrite <- Ho. apply Hans. by rewrite Htm.
      * right. by rewrite <- Htm.
Qed.

(** X2: whatever the world answers, at most one request is left without
    a measurement (the one that failed), and the clock was read once for
    every request sent and once for every measurement recorded, with at
    most one further reading (the timer started for a row that had no
    sentence). *)
Theorem every_request_but_one_is_measured env :
  (length (times (main env init).2) ≤ length (sent (main env init).2)
   ≤ S (length (times (main env init).2)))%nat ∧
  (length (sent (main env init).2) + length (times (main env init).2)
   ≤ ticks (main env init).2
   ≤ S (length (sent (main env init).2) + length (times (main env init).2)))%nat.
Proof.
  destruct (main_ledger env) as (out & tail & _ & _ & _ & Hc & Ht & _). by split.
Qed.

(** X3: the division of the last statement raises exactly when the data
    set was read and has no rows: the script ends with
    [ZeroDivisionError] if and only if there is not a single row. With
    a row, either the loop has raised before the division is reached or
    [times] is not empty when it is. *)
Theorem division_by_zero_only_without_rows env :
  (main env init).1 = inl ZeroDivisionError ↔ read_csv env dataset = Some [].
Proof.
  split.
  - intros Hres.
    destruct (read_csv env dataset) as [[|row rows]|] eqn:Hcsv; [done| |].
    + exfalso. rewrite (main_available _ _ Hcsv) in Hres.
      destruct (loop_ledger env (row :: rows) init)
        as (new & newt & out & _ & Htm & _ & _ & _ & _ & Hend & Herr).
      unfold mbind, M_bind in Hres.
      destruct (for_each (row :: rows) step env init) as [[e|[]] st1]; cbn [fst snd] in *.
      * destruct (Herr e eq_refl) as [_ [->| ->]]; done.
      * destruct (Hend eq_refl) as (_ & Hlt & _).
        destruct (report_cases env st1) as [[Hts _]|[_ Hrep]].
        -- rewrite Htm in Hts. cbn in Hts. subst newt. done.
        -- by rewrite Hrep in Hres.
    + by rewrite (main_unavailable _ _ Hcsv) in Hres.
  - intros Hcsv. by rewrite (main_available _ _ Hcsv).
Qed.

(** X4: a run that completes has read the clock exactly twice for each
    row, sent one request and recorded one value for each row, and
    printed one line for each row followed by the average line. *)
Theorem complete_run_ledger env :
  (main env init).1 = inr () →
  ∃ rows,
    read_csv env dataset = Some rows ∧ rows ≠ [] ∧
    ticks (main env init).2 = (2 * length rows)%nat ∧
    length (sent (main env init).2) = length rows ∧
    length (times (main env init).2) = length rows ∧
    length (stdout (main env init).2) = S (length rows) ∧
    last (stdout (main env init).2) = Some (average_line (times (main env init).2)).
Proof.
  intros Hdone.
  destruct (main_ledger env) as (out & tail & Ho & Hm & Htail & _ & _ & _ & Hend).
  destruct (Hend Hdone) as (rows & Hcsv & Hne & Hs & Htm & Ht).
  exists rows. destruct Htail as [[_ Hno]|(-> & _ & _)]; [done|].
  rewrite Ho, length_app, last_snoc, <- (Forall2_length _ _ _ Hm). cbn [length].
  split_and!; (lia || done).
Qed.

Lemma complete_run_ledger_witness :
  ∃ rows,
    read_csv Demo.world dataset = Some rows ∧ rows ≠ [] ∧
    ticks (main Demo.world init).2 = (2 * length rows)%nat ∧
    length (sent (main Demo.world init).2) = length rows ∧
    length (times (main Demo.world init).2) = length rows ∧
    length (stdout (main Demo.world init).2) = S (length rows) ∧
    last (stdout (main Demo.world init).2)
    = Some (average_line (times (main Demo.world init).2)).
Proof. apply (complete_run_ledger Demo.world). by vm_compute. Defined.

(** X5: a row without a ["sentence"] cell ends the run with
    [KeyError]: its timer was already started, but no request is sent
    for it or for any later row, nothing is recorded for it, and no
    summary is reported. *)
Theorem missing_sentence_cell_raises_key_error env rows k row :
  read_csv env dataset = Some rows →
  rows !! k = Some row →
  row !! "sentence" = None →
  (∀ i r, (i < k)%nat → rows !! i = Some r →
          ∃ s, r !! "sentence" = Some s ∧ is_Some (roundtrip env i (request_for s))) →
  ∃ st',
    main env init = (inl (KeyError "sentence"), st') ∧
    ticks st' = (2 * k + 1)%nat ∧
    length (sent st') = k ∧
    times st' = elapsed_from env 0 k ∧
    summary st' = None.
Proof.
  intros Hcsv Hk Hrow Hok.
  rewrite (main_available _ _ Hcsv).
  destruct (loop_key_error env rows init k row Hk Hrow Hok)
    as (st' & out & Hrun & Ht & Hs & Htm & Ho & _ & Hall).
  exists st'. rewrite (bind_raise _ _ _ _ _ _ Hrun).
  split_and!; try done.
  by apply (summary_measurements st' out).
Qed.

Lemma missing_sentence_cell_raises_key_error_witness :
  ∃ st',
    main Cases.ragged_world init = (inl (KeyError "sentence"), st') ∧
    ticks st' = 5%nat ∧
    length (sent st') = 2%nat ∧
    times st' = elapsed_from Cases.ragged_world 0 2 ∧
    summary st' = None.
Proof.
  apply (missing_sentence_cell_raises_key_error Cases.ragged_world Cases.ragged_rows 2
           {[ "id" := PyNum (Int 3) ]}).
  - reflexivity.
  - reflexivity.
  - by vm_compute.
  - intros [|[|i]] r Hi Hr; [| |lia]; injection Hr as <-;
      eexists; (split; [by vm_compute|by eexists]).
Defined.

(** X6: the script never inspects the status code of an answer. Two
    transports that raise on the same requests and answer the others
    with the same bodies, under whatever status codes, give the same
    run: an answer with an error status and a JSON body is measured and
    printed like any other. *)
Theorem status_code_is_never_inspected rc clk srv1 srv2 :
  (∀ k r, payload <$> srv1 k r = payload <$> srv2 k r) →
  main (mkEnv rc clk srv1) init = main (mkEnv rc clk srv2) init.
Proof.
  intros Hpay.
  assert (Hsrv : ∀ k r, srv1 k r ≫= payload = srv2 k r ≫= payload).
  { intros k r. specialize (Hpay k r).
    destruct (srv1 k r) as [[c1 p1]|], (srv2 k r) as [[c2 p2]|]; cbn in *; congruence. }
  destruct (rc dataset) as [rows|] eqn:Hcsv.
  2:{ by rewrite !main_unavailable. }
  rewrite (main_available (mkEnv rc clk srv1) rows Hcsv),
          (main_available (mkEnv rc clk srv2) rows Hcsv).
  unfold mbind, M_bind.
  rewrite (loop_roundtrip_ext rc clk srv1 srv2 rows Hsrv).
  destruct (for_each rows step _ init) as [[e|[]] st1]; reflexivity.
Qed.

Lemma status_code_is_never_inspected_witness :
  main (mkEnv (λ _, Some Demo.rows) Demo.wall_clock Demo.always_ok) init
  = main (mkEnv (λ _, Some Demo.rows) Demo.wall_clock Cases.always_error_status) init.
Proof. apply status_code_is_never_inspected. intros k r. reflexivity. Defined.

(** X7: the answers are opaque to the script. Two transports that raise
    on the same requests and give JSON bodies for the same requests,
    with whatever contents, give the same outcome,
    the same requests, the same number of clock readings, the same
    [times] and as many printed lines. *)
Theorem response_content_is_opaque rc clk srv1 srv2 :
  (∀ k r, same_shape (srv1 k r) (srv2 k r)) →
  (main (mkEnv rc clk srv1) init).1 = (main (mkEnv rc clk srv2) init).1 ∧
  same_but_stdout (main (mkEnv rc clk srv1) init).2 (main (mkEnv rc clk srv2) init).2 ∧
  length (stdout (main (mkEnv rc clk srv1) init).2)
  = length (stdout (main (mkEnv rc clk srv2) init).2).
Proof.
  intros Hshape.
  assert (Hsrv : ∀ k r, is_Some (srv1 k r ≫= payload) ↔ is_Some (srv2 k r ≫= payload)).
  { intros k r. apply Hshape. }
  destruct (rc dataset) as [rows|] eqn:Hcsv.
  2:{ by rewrite !main_unavailable. }
  rewrite (main_available (mkEnv rc clk srv1) rows Hcsv),
          (main_available (mkEnv rc clk srv2) rows Hcsv).
  unfold mbind, M_bind.
  destruct (loop_opaque rc clk srv1 srv2 rows Hsrv init init) as (Hr & Hs & Hl); [done..|].
  destruct (for_each rows step (mkEnv rc clk srv1) init) as [[e1|[]] st1];
    destruct (for_each rows step (mkEnv rc clk srv2) init) as [[e2|[]] st2];
    cbn [fst snd] in *; try done.
  by apply report_opaque.
Qed.

Lemma response_content_is_opaque_witness :
  (main (mkEnv (λ _, Some Demo.rows) Demo.wall_clock Demo.always_ok) init).1
  = (main (mkEnv (λ _, Some Demo.rows) Demo.wall_clock Cases.always_other) init).1 ∧
  same_but_stdout
    (main (mkEnv (λ _, Some Demo.rows) Demo.wall_clock Demo.always_ok) init).2
    (main (mkEnv (λ _, Some Demo.rows) Demo.wall_clock Cases.always_other) init).2 ∧
  length (stdout (main (mkEnv (λ _, Some Demo.rows) Demo.wall_clock Demo.always_ok) init).2)
  = length (stdout (main (mkEnv (λ _, Some Demo.rows) Demo.wall_clock Cases.always_other) init).2).
Proof.
  apply response_content_is_opaque. intros k r.
  split; (split; intros _; by eexists).
Defined.

End highload_extras.

(** * Further properties of [testing.py] *)

Section smoke_call.

(** [call] and [call_back] in full: the request leaves; its decoded
    answer is printed, or the call raises. *)
Lemma testing_call_cases text env st :
  testing.call text env st =
    match roundtrip env (length (sent st)) (forward_request text) with
    | Some data =>
        (inr (), {| ticks := ticks st; sent := sent st ++ [forward_request text];
                    stdout := stdout st ++ [[data]]; times := times st |})
    | None =>
        (inl RequestFailed,
         {| ticks := ticks st; sent := sent st ++ [forward_request text];
            stdout := stdout st; times := times st |})
    end.
Proof.
  unfold testing.call, roundtrip, forward_request, translation_request,
    requests_post, resp_json, mbind, M_bind. cbn.
  destruct (server env _ _) as [[code [data|]]|]; reflexivity.
Qed.

Lemma testing_call_back_cases text env st :
  testing.call_back text env st =
    match roundtrip env (length (sent st)) (backward_request text) with
    | Some data =>
        (inr (), {| ticks := ticks st; sent := sent st ++ [backward_request text];
                    stdout := stdout st ++ [[data]]; times := times st |})
    | None =>
        (inl RequestFailed,
         {| ticks := ticks st; sent := sent st ++ [backward_request text];
            stdout := stdout st; times := times st |})
    end.
Proof.
  unfold testing.call_back, roundtrip, backward_request, translation_request,
    requests_post, resp_json, mbind, M_bind. cbn.
  destruct (server env _ _) as [[code [data|]]|]; reflexivity.
Qed.

End smoke_call.

(** One pass of [testing.py], for either direction. *)
Section smoke_pass.
Variable body : string → M unit.
Variable mk : string → Request.
Hypothesis body_cases : ∀ text env st,
  body text env st =
    match roundtrip env (length (sent st)) (mk text) with
    | Some data =>
        (inr (), {| ticks := ticks st; sent := sent st ++ [mk text];
                    stdout := stdout st ++ [[data]]; times := times st |})
    | None =>
        (inl RequestFailed,
         {| ticks := ticks st; sent := sent st ++ [mk text];
            stdout := stdout st; times := times st |})
    end.

(** The books of a pass, whatever the server does: the requests of a
    prefix of the sentences were sent, every printed line is the decoded
    answer to the request at its position, and the pass either ran to
    its end or stopped at the first request without a decoded answer. *)
Lemma pass_ledger env (ss : list string) :
  ∀ st, ∃ k out,
    sent (for_each ss body env st).2 = sent st ++ (mk <$> take k ss) ∧
    stdout (for_each ss body env st).2 = stdout st ++ out ∧
    ticks (for_each ss body env st).2 = ticks st ∧
    times (for_each ss body env st).2 = times st ∧
    (∀ i line, out !! i = Some line →
       ∃ text data, ss !! i = Some text ∧
                    roundtrip env (length (sent st) + i) (mk text) = Some data ∧
                    line = [data]) ∧
    ((for_each ss body env st).1 = inr () ∧ k = length ss ∧ length out = length ss ∨
     (for_each ss body env st).1 = inl RequestFailed ∧ k = S (length out) ∧
       ∃ text, ss !! length out = Some text ∧
               roundtrip env (length (sent st) + length out) (mk text) = None).
Proof.
  induction ss as [|s ss IH]; intros st.
  - exists 0%nat, []. cbn. rewrite !app_nil_r. split_and!; try done. by left.
  - cbn [for_each]. unfold mbind, M_bind. rewrite body_cases.
    destruct (roundtrip env (length (sent st)) (mk s)) as [data|] eqn:Hrt.
    + match goal with |- context [for_each ss body env ?st1] =>
        destruct (IH st1) as (k & out & Hs & Ho & Ht & Htm & Hlines & Hend)
      end.
      cbn [ticks sent stdout times] in *.
      rewrite length_app in Hlines, Hend. cbn [length] in Hlines, Hend.
      exists (S k), ([data] :: out). rewrite Hs, Ho, Ht, Htm, <- !app_assoc.
      split_and!; try done.
      * intros [|i] line Hi.
        -- injection Hi as <-. exists s, data. rewrite Nat.add_0_r. done.
        -- destruct (Hlines i line Hi) as (text & d & Htext & Hd & ->).
           exists text, d. split_and!; try done.
           by replace (length (sent st) + S i)%nat with (length (sent st) + 1 + i)%nat by lia.
      * destruct Hend as [(Hr & -> & Hlen)|(Hr & -> & text & Htext & Hnone)].
        -- left. cbn [length]. by rewrite Hlen.
        -- right. cbn [length]. split_and!; try done. exists text. split; [done|].
           by replace (length (sent st) + S (length out))%nat
             with (length (sent st) + 1 + length out)%nat by lia.
    + exists 1%nat, []. cbn. rewrite !app_nil_r. split_and!; try done.
      right. split_and!; try done. exists s. by rewrite Nat.add_0_r.
Qed.

End smoke_pass.

Section smoke_main.

Lemma smoke_requests_length : length smoke_requests = 20%nat.
Proof. reflexivity. Qed.

(** The books of the whole of [testing.py]. *)
Lemma smoke_ledger env :
  ∃ k,
    sent (testing.main env init).2 = take k smoke_requests ∧
    ticks (testing.main env init).2 = 0%nat ∧
    times (testing.main env init).2 = [] ∧
    (∀ i line, stdout (testing.main env init).2 !! i = Some line →
       ∃ r data, smoke_requests !! i = Some r ∧ roundtrip env i r = Some data ∧
                 line = [data]) ∧
    ((testing.main env init).1 = inr () ∧ k = 20%nat ∧
       length (stdout (testing.main env init).2) = 20%nat ∨
     (testing.main env init).1 = inl RequestFailed ∧
       k = S (length (stdout (testing.main env init).2)) ∧ (k ≤ 20)%nat ∧
       ∃ r, smoke_requests !! length (stdout (testing.main env init).2) = Some r ∧
            roundtrip env (length (stdout (testing.main env init).2)) r = None).
Proof.
  unfold testing.main, mbind, M_bind.
  destruct (pass_ledger testing.call forward_request testing_call_cases env
              testing.sentences_ukrainian init)
    as (k1 & out1 & Hs1 & Ho1 & Ht1 & Htm1 & Hl1 & Hend1).
  destruct (for_each testing.sentences_ukrainian testing.call env init)
    as [[e1|[]] st1] eqn:Hrun1; cbn [fst snd sent stdout ticks times init app] in *.
  - (* the forward pass raised *)
    destruct Hend1 as [(? & _)|(-> & -> & text & Htext & Hnone)]; [done|].
    apply lookup_lt_Some in Htext as Hlt.
    change (length testing.sentences_ukrainian) with 10%nat in Hlt.
    exists (S (length out1)). rewrite Hs1, Ho1. unfold smoke_requests.
    split_and!; try done.
    + rewrite take_app_le by (rewrite length_fmap; exact Hlt).
      by rewrite fmap_take.
    + intros i line Hi. destruct (Hl1 i line Hi) as (t & d & Ht & Hd & ->).
      exists (forward_request t), d. split_and!; try done.
      rewrite lookup_app_l by (rewrite length_fmap; by eapply lookup_lt_Some).
      by rewrite list_lookup_fmap, Ht.
    + right. split_and!; try (lia || done).
      exists (forward_request text). split; [|done].
      rewrite lookup_app_l by (rewrite length_fmap; exact Hlt).
      by rewrite list_lookup_fmap, Htext.
  - (* the forward pass ran to its end *)
    destruct Hend1 as [(_ & -> & Hlen1)|(? & _)]; [|done].
    change (length testing.sentences_ukrainian) with 10%nat in Hlen1.
    rewrite firstn_all in Hs1.
    destruct (pass_ledger testing.call_back backward_request testing_call_back_cases env
                testing.sentences_english st1)
      as (k2 & out2 & Hs2 & Ho2 & Ht2 & Htm2 & Hl2 & Hend2).
    rewrite Hs1, length_fmap in Hl2, Hend2.
    change (length testing.sentences_ukrainian) with 10%nat in Hl2, Hend2.
    assert (Hk2 : (k2 ≤ 10)%nat).
    { destruct Hend2 as [(_ & -> & _)|(_ & -> & text & Htext & _)]; [done|].
      apply lookup_lt_Some in Htext. exact Htext. }
    exists (10 + k2)%nat.
    rewrite Hs2, Ho2, Ht2, Htm2, Hs1, Ho1, Ht1, Htm1. unfold smoke_requests.
    split_and!; try done.
    + rewrite take_app_ge by (rewrite length_fmap; cbn; lia).
      rewrite length_fmap.
      change (length testing.sentences_ukrainian) with 10%nat.
      replace (10 + k2 - 10)%nat with k2 by lia.
      by rewrite fmap_take.
    + intros i line Hi. apply lookup_app_Some in Hi as [Hi|[Hge Hi]].
      * destruct (Hl1 i line Hi) as (t & d & Ht & Hd & ->).
        exists (forward_request t), d. split_and!; try done.
        rewrite lookup_app_l by (rewrite length_fmap; by eapply lookup_lt_Some).
        by rewrite list_lookup_fmap, Ht.
      * rewrite Hlen1 in Hge, Hi.
        destruct (Hl2 _ line Hi) as (t & d & Ht & Hd & ->).
        exists (backward_request t), d.
        replace (10 + (i - 10))%nat with i in Hd by lia.
        split_and!; try done.
        rewrite lookup_app_r by (rewrite length_fmap; cbn; lia).
        rewrite length_fmap. change (length testing.sentences_ukrainian) with 10%nat.
        by rewrite list_lookup_fmap, Ht.
    + rewrite length_app, Hlen1.
      destruct Hend2 as [(-> & -> & ->)|(-> & -> & text & Htext & Hnone)].
      * left. done.
      * right. split_and!; try (lia || done).
        exists (backward_request text). split; [|done].
        rewrite lookup_app_r by (rewrite length_fmap; cbn; lia).
        rewrite length_fmap. change (length testing.sentences_ukrainian) with 10%nat.
        replace (10 + length out2 - 10)%nat with (length out2) by lia.
        by rewrite list_lookup_fmap, Htext.
Qed.

End smoke_main.

Section smoke_extras.


(** X9: every line that [testing.py] prints is the decoded answer to the
    request at the same position: the script prints the answers in the
    order of its requests, each once, and nothing else. *)
Theorem smoke_prints_the_answers env i line :
  stdout (testing.main env init).2 !! i = Some line →
  ∃ r data,
    smoke_requests !! i = Some r ∧
    sent (testing.main env init).2 !! i = Some r ∧
    roundtrip env i r = Some data ∧
    line = [data].
Proof.
  intros Hi.
  destruct (smoke_ledger env) as (k & Hs & _ & _ & Hlines & Hend).
  destruct (Hlines i line Hi) as (r & data & Hr & Hd & ->).
  exists r, data. split_and!; try done.
  apply lookup_lt_Some in Hi.
  rewrite Hs, lookup_take_lt; [done|].
  destruct Hend as [(_ & -> & Hl)|(_ & -> & _)]; lia.
Qed.

Lemma smoke_prints_the_answers_witness :
  ∃ r data,
    smoke_requests !! 12%nat = Some r ∧
    sent (testing.main Demo.world init).2 !! 12%nat = Some r ∧
    roundtrip Demo.world 12 r = Some data ∧
    [PyDict [("translated_text", PyStr "Hello, world!")]] = [data].
Proof.
  apply (smoke_prints_the_answers Demo.world 12
           [PyDict [("translated_text", PyStr "Hello, world!")]]).
  by vm_compute.
Defined.

(** X10: when every one of the twenty requests gets a decoded answer,
    [testing.py] completes, has sent exactly the twenty requests in
    order and has printed twenty lines. *)
Theorem smoke_complete_run env :
  (∀ i r, smoke_requests !! i = Some r → is_Some (roundtrip env i r)) →
  (testing.main env init).1 = inr () ∧
  sent (testing.main env init).2 = smoke_requests ∧
  length (stdout (testing.main env init).2) = 20%nat.
Proof.
  intros Hok.
  destruct (smoke_ledger env) as (k & Hs & _ & _ & _ & Hend).
  destruct Hend as [(Hr & -> & Hl)|(_ & _ & _ & r & Hr & Hnone)].
  - split_and!; first [done | rewrite Hs; by apply firstn_all2].
  - destruct (Hok _ r Hr) as [data Hdata]. congruence.
Qed.

Lemma smoke_complete_run_witness :
  (testing.main Demo.world init).1 = inr () ∧
  sent (testing.main Demo.world init).2 = smoke_requests ∧
  length (stdout (testing.main Demo.world init).2) = 20%nat.
Proof. apply (smoke_complete_run Demo.world). intros i r _. by eexists. Defined.

(** X11: the reverse pass starts only after the forward pass is over: a
    [uk]/[en] request has been sent only if each of the ten [en]/[uk]
    requests got its decoded answer. *)
Theorem reverse_pass_waits_for_forward_pass env r :
  r ∈ sent (testing.main env init).2 →
  has_direction "uk" "en" r →
  ∀ i r', (i < 10)%nat → smoke_requests !! i = Some r' → is_Some (roundtrip env i r').
Proof.
  intros Hin Hdir i r' Hi Hr'.
  destruct (smoke_ledger env) as (k & Hs & _ & _ & Hlines & Hend).
  assert (Hlen : (10 ≤ length (stdout (testing.main env init).2))%nat).
  { rewrite Hs in Hin. apply list_elem_of_lookup in Hin as [j Hj].
    apply lookup_take_Some in Hj as [Hj Hjk].
    destruct (decide (j < 10)%nat) as [Hlt|Hge].
    - exfalso. unfold smoke_requests in Hj.
      rewrite lookup_app_l in Hj by (rewrite length_fmap; exact Hlt).
      rewrite list_lookup_fmap in Hj.
      destruct (testing.sentences_ukrainian !! j) as [t|]; [|done].
      injection Hj as <-. destruct Hdir as [Hsrc _]. cbn in Hsrc. congruence.
    - destruct Hend as [(_ & _ & ->)|(_ & -> & _)]; lia. }
  destruct (lookup_lt_is_Some_2 (stdout (testing.main env init).2) i) as [line Hline]; [lia|].
  destruct (Hlines i line Hline) as (r0 & data & Hr0 & Hd & _).
  rewrite Hr' in Hr0. injection Hr0 as <-. by eexists.
Qed.

Lemma reverse_pass_waits_for_forward_pass_witness :
  is_Some (roundtrip Demo.world 3 (forward_request "Це дуже цікаво.")).
Proof.
  apply (reverse_pass_waits_for_forward_pass Demo.world (backward_request "Goodbye.")).
  - apply list_elem_of_lookup. exists 16%nat. by vm_compute.
  - by split.
  - lia.
  - reflexivity.
Defined.

Lemma for_each_ext {A} (body : A → M unit) env1 env2 (xs : list A) :
  (∀ x st, body x env1 st = body x env2 st) →
  ∀ st, for_each xs body env1 st = for_each xs body env2 st.
Proof.
  intros Hbody. induction xs as [|x xs IH]; intros st; [reflexivity|].
  cbn [for_each]. unfold mbind, M_bind. rewrite Hbody.
  destruct (body x env2 st) as [[e|[]] st1]; [reflexivity|apply IH].
Qed.

(** X12: [testing.py] never inspects the status code of an answer: two
    servers that raise on the same requests and answer the others with
    the same bodies, under whatever status codes, give the same run. *)
Theorem smoke_status_code_is_never_inspected rc clk srv1 srv2 :
  (∀ k r, payload <$> srv1 k r = payload <$> srv2 k r) →
  testing.main (mkEnv rc clk srv1) init = testing.main (mkEnv rc clk srv2) init.
Proof.
  intros Hpay.
  assert (Hrt : ∀ k r, roundtrip (mkEnv rc clk srv1) k r = roundtrip (mkEnv rc clk srv2) k r).
  { intros k r. unfold roundtrip. cbn [server]. specialize (Hpay k r).
    destruct (srv1 k r) as [[c1 p1]|], (srv2 k r) as [[c2 p2]|]; cbn in *; congruence. }
  unfold testing.main, mbind, M_bind.
  rewrite (for_each_ext testing.call (mkEnv rc clk srv1) (mkEnv rc clk srv2)).
  2:{ intros text st. by rewrite !testing_call_cases, Hrt. }
  destruct (for_each testing.sentences_ukrainian testing.call _ init) as [[e|[]] st1];
    [reflexivity|].
  apply for_each_ext. intros text st. by rewrite !testing_call_back_cases, Hrt.
Qed.

Lemma smoke_status_code_is_never_inspected_witness :
  testing.main (mkEnv (λ _, None) Demo.wall_clock Demo.always_ok) init
  = testing.main (mkEnv (λ _, None) Demo.wall_clock Cases.always_error_status) init.
Proof. apply smoke_status_code_is_never_inspected. intros k r. reflexivity. Defined.

End smoke_extras.

(** * The sign of the reported mean *)

Section binary64_mean.

(** The non-negative binary64 numbers, seen in their specification. *)
Lemma SFleb_zero_inv x :
  SFleb (S754_zero false) x = true →
  (∃ s, x = S754_zero s) ∨ x = S754_infinity false ∨ ∃ m e, x = S754_finite false m e.
Proof.
  destruct x as [s|[]| |[] m e]; cbn; intros H; try done; eauto.
Qed.

Lemma SFadd_nonneg x y :
  SFleb (S754_zero false) x = true →
  SFleb (S754_zero false) y = true →
  SFleb (S754_zero false) (SFadd prec emax x y) = true.
Proof.
  intros Hx Hy.
  destruct (SFleb_zero_inv x Hx) as [[sx ->]|[->|(mx & ex & ->)]];
    destruct (SFleb_zero_inv y Hy) as [[sy ->]|[->|(my & ey & ->)]];
    first [ done | by destruct sx, sy | by destruct sx | by destruct sy
          | cbn [SFadd cond_Zopp]; apply binary_normalize_nonneg; lia ].
Qed.

Lemma add_nonneg (a b : float) :
  (0 <=? a)%float = true → (0 <=? b)%float = true → (0 <=? a + b)%float = true.
Proof.
  rewrite !FloatAxioms.leb_spec, FloatAxioms.add_spec.
  change (Prim2SF 0) with (S754_zero false). apply SFadd_nonneg.
Qed.

Lemma fold_add_nonneg (xs : list float) :
  Forall (λ e, (0 <=? e)%float = true) xs →
  ∀ a, (0 <=? a)%float = true → (0 <=? fold_left PrimFloat.add xs a)%float = true.
Proof.
  induction 1 as [|x xs Hx _ IH]; intros a Ha; [exact Ha|].
  cbn [fold_left]. apply IH. by apply add_nonneg.
Qed.

(** The quotient of the division of two non-negative mantissas. *)
Lemma SFdiv_core_nonneg m1 e1 m2 e2 :
  0 <= (SFdiv_core_binary prec emax (Zpos m1) e1 (Zpos m2) e2).1.1.
Proof.
  unfold SFdiv_core_binary.
  set (s := _ - _ - _).
  set (m' := match s with Z0 => _ | Zpos _ => _ | Zneg _ => _ end).
  assert (Hm' : 0 <= m').
  { subst m'. destruct s; [lia| |lia]. apply Z.shiftl_nonneg. lia. }
  pose proof (Z_div_mod m' (Zpos m2) ltac:(lia)) as Hdiv.
  destruct (Z.div_eucl m' (Zpos m2)) as [q r]. cbn [fst].
  destruct Hdiv as [Heq Hr]. nia.
Qed.

Lemma SFdiv_nonneg x m e :
  SFleb (S754_zero false) x = true →
  SFleb (S754_zero false) (SFdiv prec emax x (S754_finite false m e)) = true.
Proof.
  intros Hx.
  destruct (SFleb_zero_inv x Hx) as [[sx ->]|[->|(mx & ex & ->)]];
    [by destruct sx|done|].
  cbn [SFdiv xorb].
  pose proof (SFdiv_core_nonneg mx ex m e) as Hq.
  destruct (SFdiv_core_binary prec emax (Zpos mx) ex (Zpos m) e) as [[mz ez] lz].
  cbn [fst] in Hq. by apply binary_round_aux_nonneg.
Qed.

(** Doubling a mantissa adds a digit. *)
Lemma digits2_pos_iter_xO m k :
  Zpos (digits2_pos (Pos.iter xO m k)) = Zpos (digits2_pos m) + Zpos k.
Proof.
  induction k as [|k IH] using Pos.peano_ind.
  - cbn. lia.
  - rewrite Pos.iter_succ. cbn [digits2_pos]. lia.
Qed.

(** A full mantissa with an exponent in range is left as it is. *)
Lemma binary_round_aux_full m e :
  Zpos (digits2_pos m) = 53 →
  -1074 <= e <= 971 →
  binary_round_aux prec emax false (Zpos m) e loc_Exact = S754_finite false m e.
Proof.
  intros Hd He.
  assert (Hshift : fexp prec emax (Zdigits2 (Zpos m) + e) - e = 0).
  { unfold fexp, emin, prec, emax. cbn [Zdigits2]. lia. }
  unfold binary_round_aux, shr_fexp. rewrite Hshift. cbn [shr shr_record_of_loc].
  cbn [shr_m loc_of_shr_record round_nearest_even]. rewrite Hshift. cbn [shr shr_record_of_loc shr_m].
  destruct (Z.leb_spec e (emax - prec)) as [_|Hgt]; [reflexivity|].
  unfold emax, prec in Hgt. lia.
Qed.

(** The conversion of a positive integer below 2^53 is exact: a
    positive finite number. *)
Lemma binary_normalize_small p :
  Zpos p < 2 ^ 53 →
  ∃ m e, binary_normalize prec emax (Zpos p) 0 false = S754_finite false m e ∧
         valid_binary (S754_finite false m e) = true.
Proof.
  intros Hp.
  pose proof (digits2_pos_bounds p) as [Hlo _].
  assert (Hd : Zpos (digits2_pos p) <= 53).
  { destruct (Z.le_gt_cases (Zpos (digits2_pos p)) 53) as [|Hgt]; [done|].
    assert (2 ^ 53 <= 2 ^ (Zpos (digits2_pos p) - 1)) by (apply Z.pow_le_mono_r; lia).
    lia. }
  cbn [binary_normalize]. unfold binary_round.
  assert (Hfexp : fexp prec emax (Zpos (digits2_pos p) + 0) = Zpos (digits2_pos p) - 53).
  { unfold fexp, emin, prec, emax. lia. }
  rewrite Hfexp. unfold shl_align.
  destruct (Zpos (digits2_pos p) - 53 - 0) as [|k|k] eqn:Hk; [|lia|].
  - exists p, 0. rewrite binary_round_aux_full by lia. split; [reflexivity|].
    cbn [valid_binary]. unfold bounded, canonical_mantissa. rewrite Hfexp.
    apply andb_true_intro. split; [apply Z.eqb_eq; lia|reflexivity].
  - assert (Hdk : Zpos (digits2_pos (Pos.iter xO p k)) = 53).
    { rewrite digits2_pos_iter_xO. lia. }
    exists (Pos.iter xO p k), (Zpos (digits2_pos p) - 53).
    rewrite binary_round_aux_full by (done || lia). split; [reflexivity|].
    cbn [valid_binary]. unfold bounded, canonical_mantissa, fexp, emin, prec, emax.
    rewrite Hdk. apply andb_true_intro.
    split; [apply Z.eqb_eq; lia|apply Z.leb_le; lia].
Qed.

Lemma Z2float_small_positive z :
  0 < z < 2 ^ 53 →
  ∃ m e, Prim2SF (Z2float z) = S754_finite false m e.
Proof.
  intros Hz. destruct z as [|p|p]; [lia| |lia].
  destruct (binary_normalize_small p ltac:(lia)) as (m & e & Heq & Hvalid).
  exists m, e. unfold Z2float. rewrite Heq. by apply Prim2SF_SF2Prim.
Qed.

(** A non-negative total divided by a count between 1 and 2^53. *)
Lemma div_count_nonneg (a : float) (n : Z) :
  (0 <=? a)%float = true → 0 < n < 2 ^ 53 → (0 <=? a / Z2float n)%float = true.
Proof.
  intros Ha Hn. destruct (Z2float_small_positive n Hn) as (m & e & Hd).
  rewrite FloatAxioms.leb_spec in *. rewrite FloatAxioms.div_spec, Hd.
  change (Prim2SF 0) with (S754_zero false) in *. by apply SFdiv_nonneg.
Qed.

Lemma arithmetic_mean_nonneg (xs : list float) :
  xs ≠ [] →
  Z.of_nat (length xs) < 2 ^ 53 →
  Forall (λ e, (0 <=? e)%float = true) xs →
  (0 <=? arithmetic_mean xs)%float = true.
Proof.
  intros Hne Hlen Hall. unfold arithmetic_mean.
  apply div_count_nonneg.
  - by apply fold_add_nonneg.
  - destruct xs; [done|]. cbn [length] in *. lia.
Qed.

End binary64_mean.

Section mean_sign.
Import testing_highload.

Lemma measured_lines ts out : Forall2 measured ts out → Forall measurement_line out.
Proof.
  induction 1 as [|e line ts out [data ->] _ IH]; constructor; [|exact IH].
  by exists e, data.
Qed.

(** X13: under a clock that shows finite times and never runs backwards,
    the mean that the script reports is never negative (for a data set
    of fewer than 2^53 rows, whose count converts exactly to a float). *)
Theorem reported_mean_never_negative env report :
  monotone_clock env →
  (∀ rows, read_csv env dataset = Some rows → Z.of_nat (length rows) < 2 ^ 53) →
  summary (main env init).2 = Some report →
  (0 <=? mean_latency report)%float = true.
Proof.
  intros Hclock Hsize Hsum.
  destruct (main_ledger env) as (out & tail & Ho & Hm & Htail & _ & _ & _ & Hend).
  destruct Htail as [[-> _]|(-> & Hdone & Hne)].
  - rewrite app_nil_r in Ho.
    rewrite (summary_measurements _ out Ho (measured_lines _ _ Hm)) in Hsum. done.
  - destruct (Hend Hdone) as (rows & Hcsv & _ & _ & Hlen & _).
    unfold summary in Hsum. rewrite Ho, last_snoc in Hsum. cbn in Hsum.
    injection Hsum as <-. cbn [mean_latency].
    apply arithmetic_mean_nonneg; [done|rewrite Hlen; by apply Hsize|].
    destruct (main_trace env rows Hcsv) as (k & n & _ & _ & -> & _).
    by apply elapsed_from_nonneg.
Qed.

Lemma reported_mean_never_negative_witness :
  (0 <=? mean_latency {| count := 5; mean_latency := 0.5 |})%float = true.
Proof.
  apply (reported_mean_never_negative Demo.world).
  - apply DemoFacts.wall_clock_monotone.
  - intros rows [= <-]. reflexivity.
  - by vm_compute.
Defined.

End mean_sign.
